(** * Mesen trace logger: a shallow embedding of Core/TraceLogger.cpp

    The development follows the C++ class [TraceLogger]: the status-flag
    and row formatters, the condition gate with its pending instruction,
    the circular execution log, and the buffered file session. *)

From Stdlib Require Import ZArith String Ascii Lia Bool.
From stdpp Require Import base tactics option list strings gmap pretty.

Local Open Scope Z_scope.

(** ** Machine integers *)

(** Conversion of a mathematical integer to [uint8_t], [uint32_t] and
    [int] (two's complement, 32 bits). *)
Definition to_uint8 (z : Z) : Z := z mod 2 ^ 8.
Definition to_uint32 (z : Z) : Z := z mod 2 ^ 32.
Definition to_int32 (z : Z) : Z :=
  let u := z mod 2 ^ 32 in if u <? 2 ^ 31 then u else u - 2 ^ 32.

(** ** Strings *)

(** [std::string(n, c)] for a count that fits. *)
Fixpoint string_fill (n : nat) (c : ascii) : string :=
  match n with
  | O => ""
  | S n' => String c (string_fill n' c)
  end.

(** [output += c] for a single character. *)
Definition push_back (output : string) (c : ascii) : string :=
  output +:+ String c "".

(** [string_of_list] turns a list of characters into a string. *)
Definition string_of_list (l : list ascii) : string :=
  foldr String "" l.

(** ** Hexadecimal rendering *)

(** Modelled from the spec: [HexUtilities::ToHex] is declared in
    Utilities/HexUtilities.h, which is not part of the sources at hand.
    The spec asks for fixed-width hexadecimal: two digits for a byte, four
    for an address. *)
Definition hex_digit (d : Z) : ascii :=
  nth (Z.to_nat d)
    ["0"; "1"; "2"; "3"; "4"; "5"; "6"; "7";
     "8"; "9"; "A"; "B"; "C"; "D"; "E"; "F"]%char "?"%char.

Definition ToHex8 (v : Z) : string :=
  string_of_list [hex_digit (to_uint8 v / 16); hex_digit (to_uint8 v mod 16)].

Definition ToHex16 (v : Z) : string :=
  let w := v mod 2 ^ 16 in
  string_of_list [hex_digit (w / 4096); hex_digit (w / 256 mod 16);
                  hex_digit (w / 16 mod 16); hex_digit (w mod 16)].

(** ** Status flags *)

(** Modelled from the spec: the enumeration [StatusFlagFormat] lives in
    TraceLogger.h; the source names [Hexadecimal] and [Text], the spec
    calls the remaining mode abbreviated. *)
Inductive StatusFlagFormat := Hexadecimal | Text | Abbreviated.

Global Instance StatusFlagFormat_eq_dec : EqDecision StatusFlagFormat.
Proof. solve_decision. Defined.

Definition activeStatusLetters : list ascii :=
  ["N"; "V"; "B"; "-"; "D"; "I"; "Z"; "C"]%char.
Definition inactiveStatusLetters : list ascii :=
  ["n"; "v"; "b"; "-"; "d"; "i"; "z"; "c"]%char.

Definition letter_at (letters : list ascii) (i : nat) : ascii :=
  nth i letters " "%char.

(** The body of [for(int i = 0; i < 8; i++)] in [GetStatusFlag]: [n]
    iterations are left, [i] is the loop counter, [ps] the byte shifted so
    far, and the pair carries [output] and [padding]. *)
Fixpoint GetStatusFlag_loop (fmt : StatusFlagFormat) (n i : nat) (ps : Z)
    (output : string) (padding : Z) : string * Z :=
  match n with
  | O => (output, padding)
  | S n' =>
      let '(output', padding') :=
        if negb (Z.land ps 0x80 =? 0) then
          (push_back output (letter_at activeStatusLetters i), padding - 1)
        else if decide (fmt = Text) then
          (push_back output (letter_at inactiveStatusLetters i), padding - 1)
        else (output, padding) in
      GetStatusFlag_loop fmt n' (S i) (to_uint8 (Z.shiftl ps 1)) output' padding'
  end.

(** [TraceLogger::GetStatusFlag(string &output, uint8_t ps)], reading
    [_options.StatusFormat] as [fmt]. *)
Definition GetStatusFlag (fmt : StatusFlagFormat) (output : string) (ps : Z)
    : string :=
  let output := output +:+ " P:" in
  if decide (fmt = Hexadecimal) then output +:+ ToHex8 ps
  else
    let '(output, padding) := GetStatusFlag_loop fmt 8 0 ps output 6 in
    if 0 <? padding then output +:+ string_fill (Z.to_nat padding) " "%char
    else output.

(** The characters the spec asks for, read off the bits of the status
    byte: position [i] looks at bit [7 - i]. *)
Definition flag_chars (fmt : StatusFlagFormat) (ps : Z) (i : nat) : list ascii :=
  if Z.testbit ps (7 - Z.of_nat i) then [letter_at activeStatusLetters i]
  else if decide (fmt = Text) then [letter_at inactiveStatusLetters i]
  else [].

Definition flag_field (fmt : StatusFlagFormat) (ps : Z) : list ascii :=
  concat (map (flag_chars fmt ps) (seq 0 8)).

(** The character of position [i] in Text mode. *)
Definition text_letter (ps : Z) (i : nat) : ascii :=
  if Z.testbit ps (7 - Z.of_nat i) then letter_at activeStatusLetters i
  else letter_at inactiveStatusLetters i.

(** Number of set bits among the low eight. *)
Definition popcount8 (ps : Z) : nat :=
  length (filter (λ i : nat, Z.testbit ps (7 - Z.of_nat i) = true) (seq 0 8)).

(** ** Faults and the state monad

    A member function either returns or stops with a fault: a null handle
    dereferenced, an array indexed outside its bounds, or the
    [std::length_error] that [std::string(n, c)] throws for a count that
    wrapped around.  The state reached so far is kept in both cases. *)
Inductive Fault := NullDeref | OutOfBounds | LengthError.

Inductive Outcome (R : Type) := Ok (r : R) | Raise (f : Fault).
Arguments Ok {R} r.
Arguments Raise {R} f.

Definition M (S R : Type) : Type := S → Outcome R * S.

Global Instance M_ret {S} : MRet (M S) := λ R r s, (Ok r, s).
Global Instance M_bind {S} : MBind (M S) := λ R1 R2 f m s,
  match m s with
  | (Ok r, s') => f r s'
  | (Raise e, s') => (Raise e, s')
  end.

Definition get {S} : M S S := λ s, (Ok s, s).
Definition modify {S} (f : S → S) : M S unit := λ s, (Ok (), f s).
Definition raise {S R} (e : Fault) : M S R := λ s, (Raise e, s).
Definition skip {S} : M S unit := mret ().

(** Run a computation on a component of the state, as when a member is
    passed by reference. *)
Definition zoom {S T R} (rd : S → T) (wr : T → S → S) (m : M T R) : M S R :=
  λ s, let '(r, t') := m (rd s) in (r, wr t' s).

(** The state a computation leaves, and its outcome. *)
Definition exec {S R} (m : M S R) (s : S) : S := snd (m s).
Definition outcome {S R} (m : M S R) (s : S) : Outcome R := fst (m s).

(** [std::string(n, c)] where the count [n] was computed in an unsigned
    type: a negative difference wraps to a huge count and the constructor
    throws. *)
Definition cxx_string {S} (n : Z) (c : ascii) : M S string :=
  if n <? 0 then raise LengthError else mret (string_fill (Z.to_nat n) c).

(** Indexing a C array: outside [0, length) the behaviour is undefined. *)
Definition array_load {S T} (a : list T) (i : Z) : M S T :=
  if 0 <=? i then
    match a !! Z.to_nat i with
    | Some v => mret v
    | None => raise OutOfBounds
    end
  else raise OutOfBounds.

Definition array_store {S T} (a : list T) (i : Z) (v : T) : M S (list T) :=
  if (0 <=? i) && (i <? Z.of_nat (length a)) then mret (<[Z.to_nat i := v]> a)
  else raise OutOfBounds.

(** ** Data model *)

(** The CPU snapshot ([State] in the source), with the fields the logger
    reads. *)
Record State := {
  DebugPC : Z;
  SP : Z;
  A : Z;
  X : Z;
  Y : Z;
  PS : Z;
  CycleCount : Z
}.

Record PPUDebugState := {
  Cycle : Z;
  Scanline : Z;
  FrameCount : Z
}.

Record DebugState := {
  CPU : State;
  PPU : PPUDebugState
}.

Inductive MemoryOperationType :=
  | Read | Write | ExecOpCode | ExecOperand | PpuRenderingRead | DummyRead.

Global Instance MemoryOperationType_eq_dec : EqDecision MemoryOperationType.
Proof. solve_decision. Defined.

Record OperationInfo := {
  Address : Z;
  Value : Z;
  OperationType : MemoryOperationType
}.

(** Modelled from the spec: the memory view and the label resolver are
    external collaborators (MemoryManager.h and LabelManager.h are not
    part of the sources at hand); the logger only hands them on. *)
Definition MemoryManager : Type := Z → Z.
Definition LabelManager : Type := Z → option string.

(** Modelled from the spec: the disassembly provider (DisassemblyInfo.h is
    not part of the sources at hand), as the three methods the logger
    calls.  Each takes the string it appends to. *)
Record DisassemblyInfo := {
  GetByteCode : string → string;
  ToString : string → Z → option MemoryManager → option LabelManager → string;
  GetEffectiveAddressString :
    string → State → option MemoryManager → option LabelManager → string
}.

(** Modelled from the spec: the expression evaluator
    (ExpressionEvaluator.h is not part of the sources at hand):
    [GetRpnList] compiles a condition or yields nothing, [Evaluate] gives
    the verdict of a compiled program on a state and an operation. *)
Record ExpressionEvaluator := {
  GetRpnList : string → option (list Z);
  Evaluate : list Z → DebugState → OperationInfo → bool
}.

Record TraceLoggerOptions := {
  ShowByteCode : bool;
  ShowRegisters : bool;
  ShowCpuCycles : bool;
  ShowPpuCycles : bool;
  ShowPpuScanline : bool;
  ShowPpuFrames : bool;
  ShowExtraInfo : bool;
  IndentCode : bool;
  UseLabels : bool;
  StatusFormat : StatusFlagFormat;
  Condition : string
}.

(** [std::ofstream]: the path of the file it is associated with, if any,
    and its error state ([failbit] or [badbit]). *)
Record ofstream := {
  of_path : option string;
  of_fail : bool
}.

(** The members of [TraceLogger]. *)
Record TraceLogger := {
  _options : TraceLoggerOptions;
  _outputBuffer : string;
  _outputFile : ofstream;
  _firstLine : bool;
  _memoryManager : option MemoryManager;
  _labelManager : option LabelManager;
  _expEvaluator : ExpressionEvaluator;
  _conditionRpnList : list Z;
  _logToFile : bool;
  _currentPos : Z;
  _cpuStateCache : list State;
  _ppuStateCache : list PPUDebugState;
  _disassemblyCache : list (option DisassemblyInfo);
  _lastState : DebugState;
  _lastDisassemblyInfo : option DisassemblyInfo;
  _executionTrace : string
}.

(** What surrounds the logger: whether the static [_instance] pointer is
    set, the files on disk, the paths that cannot be opened for writing,
    the CPU cycle counter, and how often the evaluator has been asked for
    a verdict. *)
Record World := {
  tl : TraceLogger;
  _instance : bool;
  disk : gmap string string;
  denied : gset string;
  cycleCount : Z;
  evalCalls : nat
}.

(** Assignments to single members. *)
Definition set_options (v : TraceLoggerOptions) (t : TraceLogger) : TraceLogger :=
  {| _options := v; _outputBuffer := _outputBuffer t;
     _outputFile := _outputFile t; _firstLine := _firstLine t;
     _memoryManager := _memoryManager t; _labelManager := _labelManager t;
     _expEvaluator := _expEvaluator t;
     _conditionRpnList := _conditionRpnList t; _logToFile := _logToFile t;
     _currentPos := _currentPos t; _cpuStateCache := _cpuStateCache t;
     _ppuStateCache := _ppuStateCache t;
     _disassemblyCache := _disassemblyCache t; _lastState := _lastState t;
     _lastDisassemblyInfo := _lastDisassemblyInfo t;
     _executionTrace := _executionTrace t |}.
Definition set_outputBuffer (v : string) (t : TraceLogger) : TraceLogger :=
  {| _options := _options t; _outputBuffer := v;
     _outputFile := _outputFile t; _firstLine := _firstLine t;
     _memoryManager := _memoryManager t; _labelManager := _labelManager t;
     _expEvaluator := _expEvaluator t;
     _conditionRpnList := _conditionRpnList t; _logToFile := _logToFile t;
     _currentPos := _currentPos t; _cpuStateCache := _cpuStateCache t;
     _ppuStateCache := _ppuStateCache t;
     _disassemblyCache := _disassemblyCache t; _lastState := _lastState t;
     _lastDisassemblyInfo := _lastDisassemblyInfo t;
     _executionTrace := _executionTrace t |}.
Definition set_outputFile (v : ofstream) (t : TraceLogger) : TraceLogger :=
  {| _options := _options t; _outputBuffer := _outputBuffer t;
     _outputFile := v; _firstLine := _firstLine t;
     _memoryManager := _memoryManager t; _labelManager := _labelManager t;
     _expEvaluator := _expEvaluator t;
     _conditionRpnList := _conditionRpnList t; _logToFile := _logToFile t;
     _currentPos := _currentPos t; _cpuStateCache := _cpuStateCache t;
     _ppuStateCache := _ppuStateCache t;
     _disassemblyCache := _disassemblyCache t; _lastState := _lastState t;
     _lastDisassemblyInfo := _lastDisassemblyInfo t;
     _executionTrace := _executionTrace t |}.
Definition set_firstLine (v : bool) (t : TraceLogger) : TraceLogger :=
  {| _options := _options t; _outputBuffer := _outputBuffer t;
     _outputFile := _outputFile t; _firstLine := v;
     _memoryManager := _memoryManager t; _labelManager := _labelManager t;
     _expEvaluator := _expEvaluator t;
     _conditionRpnList := _conditionRpnList t; _logToFile := _logToFile t;
     _currentPos := _currentPos t; _cpuStateCache := _cpuStateCache t;
     _ppuStateCache := _ppuStateCache t;
     _disassemblyCache := _disassemblyCache t; _lastState := _lastState t;
     _lastDisassemblyInfo := _lastDisassemblyInfo t;
     _executionTrace := _executionTrace t |}.
Definition set_conditionRpnList (v : list Z) (t : TraceLogger) : TraceLogger :=
  {| _options := _options t; _outputBuffer := _outputBuffer t;
     _outputFile := _outputFile t; _firstLine := _firstLine t;
     _memoryManager := _memoryManager t; _labelManager := _labelManager t;
     _expEvaluator := _expEvaluator t; _conditionRpnList := v;
     _logToFile := _logToFile t; _currentPos := _currentPos t;
     _cpuStateCache := _cpuStateCache t; _ppuStateCache := _ppuStateCache t;
     _disassemblyCache := _disassemblyCache t; _lastState := _lastState t;
     _lastDisassemblyInfo := _lastDisassemblyInfo t;
     _executionTrace := _executionTrace t |}.
Definition set_logToFile (v : bool) (t : TraceLogger) : TraceLogger :=
  {| _options := _options t; _outputBuffer := _outputBuffer t;
     _outputFile := _outputFile t; _firstLine := _firstLine t;
     _memoryManager := _memoryManager t; _labelManager := _labelManager t;
     _expEvaluator := _expEvaluator t;
     _conditionRpnList := _conditionRpnList t; _logToFile := v;
     _currentPos := _currentPos t; _cpuStateCache := _cpuStateCache t;
     _ppuStateCache := _ppuStateCache t;
     _disassemblyCache := _disassemblyCache t; _lastState := _lastState t;
     _lastDisassemblyInfo := _lastDisassemblyInfo t;
     _executionTrace := _executionTrace t |}.
Definition set_currentPos (v : Z) (t : TraceLogger) : TraceLogger :=
  {| _options := _options t; _outputBuffer := _outputBuffer t;
     _outputFile := _outputFile t; _firstLine := _firstLine t;
     _memoryManager := _memoryManager t; _labelManager := _labelManager t;
     _expEvaluator := _expEvaluator t;
     _conditionRpnList := _conditionRpnList t; _logToFile := _logToFile t;
     _currentPos := v; _cpuStateCache := _cpuStateCache t;
     _ppuStateCache := _ppuStateCache t;
     _disassemblyCache := _disassemblyCache t; _lastState := _lastState t;
     _lastDisassemblyInfo := _lastDisassemblyInfo t;
     _executionTrace := _executionTrace t |}.
Definition set_cpuStateCache (v : list State) (t : TraceLogger) : TraceLogger :=
  {| _options := _options t; _outputBuffer := _outputBuffer t;
     _outputFile := _outputFile t; _firstLine := _firstLine t;
     _memoryManager := _memoryManager t; _labelManager := _labelManager t;
     _expEvaluator := _expEvaluator t;
     _conditionRpnList := _conditionRpnList t; _logToFile := _logToFile t;
     _currentPos := _currentPos t; _cpuStateCache := v;
     _ppuStateCache := _ppuStateCache t;
     _disassemblyCache := _disassemblyCache t; _lastState := _lastState t;
     _lastDisassemblyInfo := _lastDisassemblyInfo t;
     _executionTrace := _executionTrace t |}.
Definition set_ppuStateCache (v : list PPUDebugState) (t : TraceLogger) : TraceLogger :=
  {| _options := _options t; _outputBuffer := _outputBuffer t;
     _outputFile := _outputFile t; _firstLine := _firstLine t;
     _memoryManager := _memoryManager t; _labelManager := _labelManager t;
     _expEvaluator := _expEvaluator t;
     _conditionRpnList := _conditionRpnList t; _logToFile := _logToFile t;
     _currentPos := _currentPos t; _cpuStateCache := _cpuStateCache t;
     _ppuStateCache := v; _disassemblyCache := _disassemblyCache t;
     _lastState := _lastState t;
     _lastDisassemblyInfo := _lastDisassemblyInfo t;
     _executionTrace := _executionTrace t |}.
Definition set_disassemblyCache (v : list (option DisassemblyInfo)) (t : TraceLogger) : TraceLogger :=
  {| _options := _options t; _outputBuffer := _outputBuffer t;
     _outputFile := _outputFile t; _firstLine := _firstLine t;
     _memoryManager := _memoryManager t; _labelManager := _labelManager t;
     _expEvaluator := _expEvaluator t;
     _conditionRpnList := _conditionRpnList t; _logToFile := _logToFile t;
     _currentPos := _currentPos t; _cpuStateCache := _cpuStateCache t;
     _ppuStateCache := _ppuStateCache t; _disassemblyCache := v;
     _lastState := _lastState t;
     _lastDisassemblyInfo := _lastDisassemblyInfo t;
     _executionTrace := _executionTrace t |}.
Definition set_lastState (v : DebugState) (t : TraceLogger) : TraceLogger :=
  {| _options := _options t; _outputBuffer := _outputBuffer t;
     _outputFile := _outputFile t; _firstLine := _firstLine t;
     _memoryManager := _memoryManager t; _labelManager := _labelManager t;
     _expEvaluator := _expEvaluator t;
     _conditionRpnList := _conditionRpnList t; _logToFile := _logToFile t;
     _currentPos := _currentPos t; _cpuStateCache := _cpuStateCache t;
     _ppuStateCache := _ppuStateCache t;
     _disassemblyCache := _disassemblyCache t; _lastState := v;
     _lastDisassemblyInfo := _lastDisassemblyInfo t;
     _executionTrace := _executionTrace t |}.
Definition set_lastDisassemblyInfo (v : option DisassemblyInfo) (t : TraceLogger) : TraceLogger :=
  {| _options := _options t; _outputBuffer := _outputBuffer t;
     _outputFile := _outputFile t; _firstLine := _firstLine t;
     _memoryManager := _memoryManager t; _labelManager := _labelManager t;
     _expEvaluator := _expEvaluator t;
     _conditionRpnList := _conditionRpnList t; _logToFile := _logToFile t;
     _currentPos := _currentPos t; _cpuStateCache := _cpuStateCache t;
     _ppuStateCache := _ppuStateCache t;
     _disassemblyCache := _disassemblyCache t; _lastState := _lastState t;
     _lastDisassemblyInfo := v; _executionTrace := _executionTrace t |}.
Definition set_executionTrace (v : string) (t : TraceLogger) : TraceLogger :=
  {| _options := _options t; _outputBuffer := _outputBuffer t;
     _outputFile := _outputFile t; _firstLine := _firstLine t;
     _memoryManager := _memoryManager t; _labelManager := _labelManager t;
     _expEvaluator := _expEvaluator t;
     _conditionRpnList := _conditionRpnList t; _logToFile := _logToFile t;
     _currentPos := _currentPos t; _cpuStateCache := _cpuStateCache t;
     _ppuStateCache := _ppuStateCache t;
     _disassemblyCache := _disassemblyCache t; _lastState := _lastState t;
     _lastDisassemblyInfo := _lastDisassemblyInfo t; _executionTrace := v |}.
Definition set_tl (v : TraceLogger) (w : World) : World :=
  {| tl := v; _instance := _instance w; disk := disk w;
     denied := denied w; cycleCount := cycleCount w; evalCalls := evalCalls w |}.
Definition set_instance (v : bool) (w : World) : World :=
  {| tl := tl w; _instance := v; disk := disk w;
     denied := denied w; cycleCount := cycleCount w; evalCalls := evalCalls w |}.
Definition set_disk (v : gmap string string) (w : World) : World :=
  {| tl := tl w; _instance := _instance w; disk := v;
     denied := denied w; cycleCount := cycleCount w; evalCalls := evalCalls w |}.
Definition set_evalCalls (v : nat) (w : World) : World :=
  {| tl := tl w; _instance := _instance w; disk := disk w;
     denied := denied w; cycleCount := cycleCount w; evalCalls := v |}.

(** ** Access to the logger inside the world *)

Definition this : M World TraceLogger := λ w, (Ok (tl w), w).
Definition update (f : TraceLogger → TraceLogger) : M World unit :=
  modify (λ w, set_tl (f (tl w)) w).

(** A member function that works on [_outputBuffer] or [_executionTrace]
    through its [string &output] parameter. *)
Definition on_outputBuffer {R} (m : M string R) : M World R :=
  zoom (λ w, _outputBuffer (tl w)) (λ s w, set_tl (set_outputBuffer s (tl w)) w) m.
Definition on_executionTrace {R} (m : M string R) : M World R :=
  zoom (λ w, _executionTrace (tl w))
       (λ s w, set_tl (set_executionTrace s (tl w)) w) m.

(** ** The file stream

    [std::ofstream] as the logger uses it.  Opening fails when the stream
    already has a file or the path cannot be opened, and sets the error
    state; a successful open truncates the file and clears the error
    state.  Nothing is written through a stream in error state. *)
Definition ofstream_open (filename : string) : M World unit := λ w,
  let f := _outputFile (tl w) in
  match of_path f with
  | Some _ =>
      (Ok (), set_tl (set_outputFile {| of_path := of_path f; of_fail := true |} (tl w)) w)
  | None =>
      if decide (filename ∈ denied w) then
        (Ok (), set_tl (set_outputFile {| of_path := None; of_fail := true |} (tl w)) w)
      else
        (Ok (), set_disk (<[filename := ""]> (disk w))
                  (set_tl (set_outputFile {| of_path := Some filename; of_fail := false |}
                                          (tl w)) w))
  end.

(** [if(_outputFile)]: the stream is not in error state. *)
Definition ofstream_good (f : ofstream) : bool := negb (of_fail f).

(** [_outputFile << s]. *)
Definition ofstream_write (s : string) : M World unit := λ w,
  let f := _outputFile (tl w) in
  if of_fail f then (Ok (), w)
  else
    match of_path f with
    | Some p => (Ok (), set_disk (<[p := default "" (disk w !! p) +:+ s]> (disk w)) w)
    | None =>
        if decide (s = "") then (Ok (), w)
        else (Ok (), set_tl (set_outputFile {| of_path := None; of_fail := true |} (tl w)) w)
    end.

(** [_outputFile.close()]. *)
Definition ofstream_close : M World unit := λ w,
  let f := _outputFile (tl w) in
  match of_path f with
  | Some _ =>
      (Ok (), set_tl (set_outputFile {| of_path := None; of_fail := of_fail f |} (tl w)) w)
  | None =>
      (Ok (), set_tl (set_outputFile {| of_path := None; of_fail := true |} (tl w)) w)
  end.

(** ** The row formatter *)

Definition append (s : string) : M string unit :=
  modify (λ output, output +:+ s).

(** [disassemblyInfo->...] on a [shared_ptr] that may be empty. *)
Definition deref {S} (h : option DisassemblyInfo) : M S DisassemblyInfo :=
  match h with
  | Some d => mret d
  | None => raise NullDeref
  end.

Definition len (s : string) : Z := Z.of_nat (String.length s).

Definition newline : string := String "010"%char "".

(** [TraceLogger::GetTraceRow(output, cpuState, ppuState, disassemblyInfo,
    firstLine)]; [self] is the object the member function runs on. *)
Definition GetTraceRow (self : TraceLogger) (cpuState : State)
    (ppuState : PPUDebugState) (disassemblyInfo : option DisassemblyInfo)
    (firstLine : bool) : M string unit :=
  let options := _options self in
  (if negb firstLine then append newline else skip);;
  append (ToHex16 (DebugPC cpuState) +:+ "  ");;
  (if ShowByteCode options then
     d ← deref disassemblyInfo;
     let byteCode := GetByteCode d "" in
     pad ← cxx_string (13 - len byteCode) " "%char;
     append (byteCode +:+ pad)
   else skip);;
  (if IndentCode options then
     let indentLevel := 0xFF - SP cpuState in
     pad ← cxx_string indentLevel " "%char;
     append pad
   else skip);;
  let labelManager := if UseLabels options then _labelManager self else None in
  d ← deref disassemblyInfo;
  let code := ToString d "" (DebugPC cpuState) (_memoryManager self) labelManager in
  let code :=
    GetEffectiveAddressString d code cpuState (_memoryManager self) labelManager in
  let code :=
    code +:+ string_fill (Z.to_nat (Z.max 0 (to_int32 (32 - len code)))) " "%char in
  append code;;
  (if ShowRegisters options then
     append (" A:" +:+ ToHex8 (A cpuState) +:+
             " X:" +:+ ToHex8 (X cpuState) +:+
             " Y:" +:+ ToHex8 (Y cpuState));;
     modify (λ output, GetStatusFlag (StatusFormat options) output (PS cpuState));;
     append (" SP:" +:+ ToHex8 (SP cpuState))
   else skip);;
  (if ShowPpuCycles options then
     let str := pretty (Cycle ppuState) in
     pad ← cxx_string (3 - len str) " "%char;
     append (" CYC:" +:+ pad +:+ str)
   else skip);;
  (if ShowPpuScanline options then
     let str := pretty (Scanline ppuState) in
     pad ← cxx_string (3 - len str) " "%char;
     append (" SL:" +:+ pad +:+ str)
   else skip);;
  (if ShowPpuFrames options then
     append (" FC:" +:+ pretty (FrameCount ppuState))
   else skip);;
  (if ShowCpuCycles options then
     append (" CPU Cycle:" +:+ pretty (CycleCount cpuState))
   else skip).

(** ** The logger *)

(** The [shared_ptr<DisassemblyInfo> &] parameter of [ConditionMatches]
    and [AddRow] is bound either to a variable of the caller or, in
    [LogNonExec], to the member [_lastDisassemblyInfo] itself. *)
Inductive HandleRef :=
  | Local (h : option DisassemblyInfo)
  | LastDisassemblyInfo.

Definition read_ref (r : HandleRef) : M World (option DisassemblyInfo) :=
  t ← this;
  match r with
  | Local h => mret h
  | LastDisassemblyInfo => mret (_lastDisassemblyInfo t)
  end.

(** Members the constructor leaves to default initialisation. *)
Record Uninitialised := {
  u_options : TraceLoggerOptions;
  u_firstLine : bool;
  u_lastState : DebugState;
  u_cpuState : State;
  u_ppuState : PPUDebugState
}.

Section Logger.

(** The capacity of the execution log, a constant of TraceLogger.h
    (which is not part of the sources at hand), of type [int]. *)
Variable ExecutionLogSize : Z.

(** [TraceLogger::TraceLogger]; the assignment [_instance = this] is the
    flag [_instance] of the world the logger is put in. *)
Definition TraceLogger_new (expEvaluator : ExpressionEvaluator)
    (memoryManager : option MemoryManager)
    (labelManager : option LabelManager) (u : Uninitialised) : TraceLogger :=
  {| _options := u_options u;
     _outputBuffer := "";
     _outputFile := {| of_path := None; of_fail := false |};
     _firstLine := u_firstLine u;
     _memoryManager := memoryManager;
     _labelManager := labelManager;
     _expEvaluator := expEvaluator;
     _conditionRpnList := [];
     _logToFile := false;
     _currentPos := 0;
     _cpuStateCache := replicate (Z.to_nat ExecutionLogSize) (u_cpuState u);
     _ppuStateCache := replicate (Z.to_nat ExecutionLogSize) (u_ppuState u);
     _disassemblyCache := replicate (Z.to_nat ExecutionLogSize) None;
     _lastState := u_lastState u;
     _lastDisassemblyInfo := None;
     _executionTrace := "" |}.

(** [TraceLogger::SetOptions]. *)
Definition SetOptions (options : TraceLoggerOptions) : M World unit :=
  update (set_options options);;
  let condition := Condition options in
  update (set_conditionRpnList []);;
  if decide (condition = "") then skip
  else
    t ← this;
    match GetRpnList (_expEvaluator t) condition with
    | Some rpnList => update (set_conditionRpnList rpnList)
    | None => skip
    end.

(** [TraceLogger::StartLogging]. *)
Definition StartLogging (filename : string) : M World unit :=
  ofstream_open filename;;
  update (set_logToFile true);;
  update (set_firstLine true).

(** [TraceLogger::StopLogging].  [Console::Pause] and [Console::Resume]
    do not touch the logger and are left out. *)
Definition StopLogging : M World unit :=
  t ← this;
  if _logToFile t then
    (if ofstream_good (_outputFile t) then
       (if decide (_outputBuffer t = "") then skip
        else ofstream_write (_outputBuffer t));;
       ofstream_close
     else skip);;
    update (set_logToFile false)
  else skip.

(** [TraceLogger::~TraceLogger]. *)
Definition TraceLogger_delete : M World unit :=
  StopLogging;;
  modify (set_instance false).

(** [TraceLogger::LogStatic]. *)
Definition LogStatic (log : string) : M World unit :=
  w ← get;
  let t := tl w in
  if _instance w && _logToFile t && ShowExtraInfo (_options t)
     && negb (_firstLine t) then
    ofstream_write (_outputBuffer t);;
    update (set_outputBuffer "");;
    ofstream_write " - [";;
    ofstream_write log;;
    ofstream_write " - Cycle: ";;
    ofstream_write (pretty (cycleCount w));;
    ofstream_write "]"
  else skip.

(** [_expEvaluator->Evaluate(...)], counted in [evalCalls]. *)
Definition call_Evaluate (rpnList : list Z) (state : DebugState)
    (operationInfo : OperationInfo) : M World bool := λ w,
  (Ok (Evaluate (_expEvaluator (tl w)) rpnList state operationInfo),
   set_evalCalls (S (evalCalls w)) w).

(** [TraceLogger::ConditionMatches].  [state] is only read, so it is
    passed by value. *)
Definition ConditionMatches (state : DebugState) (disassemblyInfo : HandleRef)
    (operationInfo : OperationInfo) : M World bool :=
  t ← this;
  if negb (bool_decide (_conditionRpnList t = [])) then
    matched ← call_Evaluate (_conditionRpnList t) state operationInfo;
    if negb matched then
      (if decide (OperationType operationInfo = ExecOpCode) then
         update (set_lastState state);;
         h ← read_ref disassemblyInfo;
         update (set_lastDisassemblyInfo h)
       else skip);;
      mret false
    else mret true
  else mret true.

(** [TraceLogger::AddRow]. *)
Definition AddRow (disassemblyInfo : HandleRef) (state : DebugState)
    : M World unit :=
  t ← this;
  h ← read_ref disassemblyInfo;
  dc ← array_store (_disassemblyCache t) (_currentPos t) h;
  update (set_disassemblyCache dc);;
  cc ← array_store (_cpuStateCache t) (_currentPos t) (CPU state);
  update (set_cpuStateCache cc);;
  pc ← array_store (_ppuStateCache t) (_currentPos t) (PPU state);
  update (set_ppuStateCache pc);;
  update (set_currentPos ((_currentPos t + 1) `rem` ExecutionLogSize));;
  update (set_lastDisassemblyInfo None);;
  t ← this;
  if _logToFile t then
    h ← read_ref disassemblyInfo;
    on_outputBuffer (GetTraceRow t (CPU state) (PPU state) h (_firstLine t));;
    t ← this;
    (if 32768 <? len (_outputBuffer t) then
       ofstream_write (_outputBuffer t);;
       update (set_outputBuffer "")
     else skip);;
    update (set_firstLine false)
  else skip.

(** [TraceLogger::LogNonExec]. *)
Definition LogNonExec (operationInfo : OperationInfo) : M World unit :=
  t ← this;
  match _lastDisassemblyInfo t with
  | Some _ =>
      matched ← ConditionMatches (_lastState t) LastDisassemblyInfo operationInfo;
      if (matched : bool) then
        t ← this;
        AddRow LastDisassemblyInfo (_lastState t)
      else skip
  | None => skip
  end.

(** [TraceLogger::Log]. *)
Definition Log (state : DebugState) (disassemblyInfo : option DisassemblyInfo)
    (operationInfo : OperationInfo) : M World unit :=
  match disassemblyInfo with
  | Some _ =>
      matched ← ConditionMatches state (Local disassemblyInfo) operationInfo;
      if (matched : bool) then AddRow (Local disassemblyInfo) state else skip
  | None => skip
  end.

(** The loop of [GetExecutionTrace]: [n] iterations are left and [i] is
    the loop counter.  The sum [startPos + i] never leaves the range of
    [int] (lemma [trace_index_no_overflow]), so it is written without
    wrap-around; [%] truncates towards zero. *)
Fixpoint GetExecutionTrace_loop (n : nat) (i : Z) (startPos : Z)
    (firstLine : bool) : M World unit :=
  match n with
  | O => skip
  | S n' =>
      let index := (startPos + i) `rem` ExecutionLogSize in
      t ← this;
      h ← array_load (_disassemblyCache t) index;
      match h with
      | Some _ =>
          cpu ← array_load (_cpuStateCache t) index;
          ppu ← array_load (_ppuStateCache t) index;
          on_executionTrace (GetTraceRow t cpu ppu h firstLine);;
          GetExecutionTrace_loop n' (i + 1) startPos false
      | None => GetExecutionTrace_loop n' (i + 1) startPos firstLine
      end
  end.

(** [TraceLogger::GetExecutionTrace(uint32_t lineCount)].  The sum
    [_currentPos + ExecutionLogSize - lineCount] is computed in
    [unsigned int] and converted to [int]. *)
Definition GetExecutionTrace (lineCount : Z) : M World string :=
  update (set_executionTrace "");;
  t ← this;
  let startPos :=
    to_int32 (to_uint32 (_currentPos t + ExecutionLogSize - to_uint32 lineCount)) in
  GetExecutionTrace_loop (Z.to_nat (to_int32 lineCount)) 0 startPos true;;
  t ← this;
  mret (_executionTrace t).

End Logger.

(** A write to the ring: what [Log] hands to [AddRow]. *)
Definition RingWrite : Type := DisassemblyInfo * DebugState.

(** ** Sample collaborators and inputs

    Concrete objects on which the definitions are evaluated. *)
Module Sample.

(** A condition that holds on memory writes; the text ["("] does not
    compile. *)
Definition evaluator : ExpressionEvaluator :=
  {| GetRpnList := λ condition,
       if decide (condition = "(") then None
       else Some [Z.of_nat (String.length condition)];
     Evaluate := λ _ _ operationInfo,
       bool_decide (OperationType operationInfo = Write) |}.

Definition nop : DisassemblyInfo :=
  {| GetByteCode := λ out, out +:+ "$EA";
     ToString := λ out _ _ _, out +:+ "NOP";
     GetEffectiveAddressString := λ out _ _ _, out |}.

Definition sta : DisassemblyInfo :=
  {| GetByteCode := λ out, out +:+ "$8D $00 $20";
     ToString := λ out _ _ _, out +:+ "STA $2000";
     GetEffectiveAddressString := λ out _ _ _, out +:+ " = $00" |}.

Definition inx : DisassemblyInfo :=
  {| GetByteCode := λ out, out +:+ "$E8";
     ToString := λ out _ _ _, out +:+ "INX";
     GetEffectiveAddressString := λ out _ _ _, out |}.

Definition options (condition : string) : TraceLoggerOptions :=
  {| ShowByteCode := false; ShowRegisters := false; ShowCpuCycles := false;
     ShowPpuCycles := false; ShowPpuScanline := false; ShowPpuFrames := false;
     ShowExtraInfo := true; IndentCode := false; UseLabels := false;
     StatusFormat := Text; Condition := condition |}.

Definition cpu (pc : Z) : State :=
  {| DebugPC := pc; SP := 0xFD; A := 0; X := 0; Y := 0; PS := 0x24;
     CycleCount := 7 |}.

Definition ppu : PPUDebugState :=
  {| Cycle := 21; Scanline := 0; FrameCount := 1 |}.

Definition state (pc : Z) : DebugState := {| CPU := cpu pc; PPU := ppu |}.

Definition fetch : OperationInfo :=
  {| Address := 0x8000; Value := 0x8D; OperationType := ExecOpCode |}.
Definition write : OperationInfo :=
  {| Address := 0x2000; Value := 0; OperationType := Write |}.

Definition uninitialised : Uninitialised :=
  {| u_options := options ""; u_firstLine := false;
     u_lastState := state 0; u_cpuState := cpu 0; u_ppuState := ppu |}.

(** A logger just constructed, with capacity [capacity]; the directory
    [/ro] is read-only. *)
Definition world (capacity : Z) : World :=
  {| tl := TraceLogger_new capacity evaluator None None uninitialised;
     _instance := true;
     disk := ∅;
     denied := {[ "/ro/trace.txt" ]};
     cycleCount := 1234;
     evalCalls := 0 |}.

(** Run a list of calls one after the other, whatever their outcome. *)
Definition run (calls : list (M World unit)) (w : World) : World :=
  foldl (λ w m, exec m w) w calls.

(** A formatted row of the sample instructions: address, mnemonic,
    padding to 32 characters. *)
Definition row (text : string) : string :=
  text +:+ string_fill (32 + 6 - String.length text) " "%char.

(** A session of one row that is stopped, and a second session started
    on another file. *)
Definition second_session : World :=
  run [StartLogging "a.log";
       Log 4 (state 0x8000) (Some nop) fetch;
       StopLogging;
       StartLogging "b.log"] (world 4).

(** ... and one row logged and the session stopped again. *)
Definition second_session_done : World :=
  run [Log 4 (state 0x8001) (Some inx) fetch; StopLogging] second_session.


(** A session with one row written. *)
Definition one_row : World :=
  run [StartLogging "a.log"; Log 4 (state 0x8000) (Some nop) fetch] (world 4).

(** A session in which an opcode fetch has failed a condition that
    holds on writes only. *)
Definition pending_in_session : World :=
  run [SetOptions (options "w");
       StartLogging "a.log";
       Log 4 (state 0x8000) (Some sta) fetch] (world 4).

(** The same failed opcode fetch with no session active. *)
Definition pending_idle : World :=
  run [SetOptions (options "w");
       Log 4 (state 0x8000) (Some sta) fetch] (world 4).

Definition read_op : OperationInfo :=
  {| Address := 0x2002; Value := 0; OperationType := Read |}.

(** Two rows in a ring of four slots. *)
Definition two_rows : World :=
  run [Log 4 (state 0x8000) (Some nop) fetch;
       Log 4 (state 0x8001) (Some inx) fetch] (world 4).

(** Three writes to a ring of two slots. *)
Definition three_writes : list RingWrite :=
  [(nop, state 0x8000); (inx, state 0x8001); (sta, state 0x8002)].

End Sample.

(** ** The ring seen as a whole *)

(** The entry of slot [i]: handle, CPU snapshot and PPU snapshot. *)
Definition slot (t : TraceLogger) (i : nat)
    : option (option DisassemblyInfo * State * PPUDebugState) :=
  h ← _disassemblyCache t !! i;
  c ← _cpuStateCache t !! i;
  p ← _ppuStateCache t !! i;
  Some (h, c, p).

(** The invariant of the ring: the cursor is inside the three arrays, which
    all have [capacity] slots. *)
Definition ring_ok (capacity : Z) (t : TraceLogger) : Prop :=
  0 ≤ _currentPos t < capacity ∧
  Z.of_nat (length (_disassemblyCache t)) = capacity ∧
  Z.of_nat (length (_cpuStateCache t)) = capacity ∧
  Z.of_nat (length (_ppuStateCache t)) = capacity.

Definition write_row (capacity : Z) (r : RingWrite) : M World unit :=
  AddRow capacity (Local (Some r.1)) r.2.

(** The state after a sequence of writes. *)
Definition after_writes (capacity : Z) (rows : list RingWrite) (w : World) : World :=
  foldl (λ w r, exec (write_row capacity r) w) w rows.

(** Rendering rows one after the other into [_executionTrace], the first
    with [firstLine] as given. *)
Fixpoint render_rows (self : TraceLogger) (rows : list RingWrite) (firstLine : bool)
    : M string unit :=
  match rows with
  | [] => skip
  | r :: rows' =>
      GetTraceRow self (CPU r.2) (PPU r.2) (Some r.1) firstLine;;
      render_rows self rows' false
  end.

(** The last [n] elements of a list. *)
Definition lastn {T} (n : nat) (l : list T) : list T := drop (length l - n) l.

(** What rendering [rows] from an empty trace returns. *)
Definition rendered (self : TraceLogger) (rows : list RingWrite) : Outcome string :=
  let '(r, s) := render_rows self rows true "" in
  match r with
  | Ok _ => Ok s
  | Raise f => Raise f
  end.

(** ** The two halves of [AddRow] *)

(** The first half stores into the ring, advances the cursor and clears
    the pending instruction. *)
Definition ring_write (capacity : Z) (h : option DisassemblyInfo)
    (state : DebugState) (t : TraceLogger) : TraceLogger :=
  let pos := Z.to_nat (_currentPos t) in
  set_lastDisassemblyInfo None
    (set_currentPos ((_currentPos t + 1) `rem` capacity)
       (set_ppuStateCache (<[pos := PPU state]> (_ppuStateCache t))
          (set_cpuStateCache (<[pos := CPU state]> (_cpuStateCache t))
             (set_disassemblyCache (<[pos := h]> (_disassemblyCache t)) t)))).

(** The handle a reference yields once [_lastDisassemblyInfo] has been
    reset. *)
Definition after_reset (r : HandleRef) : option DisassemblyInfo :=
  match r with
  | Local h => h
  | LastDisassemblyInfo => None
  end.

(** The second half formats the row into the file buffer when a session
    is active; [h] is what the handle reference yields by then. *)
Definition AddRow_file (h : option DisassemblyInfo) (state : DebugState)
    : M World unit :=
  t ← this;
  if _logToFile t then
    on_outputBuffer (GetTraceRow t (CPU state) (PPU state) h (_firstLine t));;
    t ← this;
    (if 32768 <? len (_outputBuffer t) then
       ofstream_write (_outputBuffer t);;
       update (set_outputBuffer "")
     else skip);;
    update (set_firstLine false)
  else skip.

(** [w'] differs from [w] at most in the members of the file session and
    in the files on disk. *)
Definition file_frame (w w' : World) : Prop :=
  ∃ (buffer : string) (file : ofstream) (firstLine : bool) (d : gmap string string),
    w' = set_disk d
           (set_tl (set_firstLine firstLine
                      (set_outputFile file (set_outputBuffer buffer (tl w)))) w).

(** The content of the file at [path]. *)
Definition file_content (w : World) (path : string) : string :=
  default "" (disk w !! path).

(** The world once [s] has been appended to the file at [path]. *)
Definition disk_append (w : World) (path s : string) : World :=
  set_disk (<[path := file_content w path +:+ s]> (disk w)) w.

(** The members the ring store and the condition gate work on. *)
Record RingView := {
  rv_disassembly : list (option DisassemblyInfo);
  rv_cpu : list State;
  rv_ppu : list PPUDebugState;
  rv_pos : Z;
  rv_lastState : DebugState;
  rv_lastDisassemblyInfo : option DisassemblyInfo;
  rv_evalCalls : nat
}.

Definition ring_of (w : World) : RingView :=
  {| rv_disassembly := _disassemblyCache (tl w);
     rv_cpu := _cpuStateCache (tl w);
     rv_ppu := _ppuStateCache (tl w);
     rv_pos := _currentPos (tl w);
     rv_lastState := _lastState (tl w);
     rv_lastDisassemblyInfo := _lastDisassemblyInfo (tl w);
     rv_evalCalls := evalCalls w |}.

(** [ring_write] and the bookkeeping of the gate, on the view. *)
Definition ring_write_view (capacity : Z) (h : option DisassemblyInfo)
    (state : DebugState) (v : RingView) : RingView :=
  let pos := Z.to_nat (rv_pos v) in
  {| rv_disassembly := <[pos := h]> (rv_disassembly v);
     rv_cpu := <[pos := CPU state]> (rv_cpu v);
     rv_ppu := <[pos := PPU state]> (rv_ppu v);
     rv_pos := (rv_pos v + 1) `rem` capacity;
     rv_lastState := rv_lastState v;
     rv_lastDisassemblyInfo := None;
     rv_evalCalls := rv_evalCalls v |}.

Definition count_call (v : RingView) : RingView :=
  {| rv_disassembly := rv_disassembly v; rv_cpu := rv_cpu v; rv_ppu := rv_ppu v;
     rv_pos := rv_pos v; rv_lastState := rv_lastState v;
     rv_lastDisassemblyInfo := rv_lastDisassemblyInfo v;
     rv_evalCalls := S (rv_evalCalls v) |}.

Definition keep_pending (state : DebugState) (h : option DisassemblyInfo)
    (v : RingView) : RingView :=
  {| rv_disassembly := rv_disassembly v; rv_cpu := rv_cpu v; rv_ppu := rv_ppu v;
     rv_pos := rv_pos v; rv_lastState := state;
     rv_lastDisassemblyInfo := h;
     rv_evalCalls := rv_evalCalls v |}.

(** What [Log] with a handle does to the view. *)
Definition Log_view (capacity : Z) (rpnList : list Z) (ev : ExpressionEvaluator)
    (state : DebugState) (d : DisassemblyInfo) (operationInfo : OperationInfo)
    (v : RingView) : RingView :=
  if bool_decide (rpnList = []) then ring_write_view capacity (Some d) state v
  else if Evaluate ev rpnList state operationInfo then
    ring_write_view capacity (Some d) state (count_call v)
  else if decide (OperationType operationInfo = ExecOpCode) then
    keep_pending state (Some d) (count_call v)
  else count_call v.

(** ** The public operations as data *)

(** A call of one of the public member functions. *)
Inductive Call :=
  | CallSetOptions (options : TraceLoggerOptions)
  | CallStartLogging (filename : string)
  | CallStopLogging
  | CallLogStatic (log : string)
  | CallLog (state : DebugState) (disassemblyInfo : option DisassemblyInfo)
            (operationInfo : OperationInfo)
  | CallLogNonExec (operationInfo : OperationInfo)
  | CallGetExecutionTrace (lineCount : Z).

Definition do_call (capacity : Z) (c : Call) : M World unit :=
  match c with
  | CallSetOptions options => SetOptions options
  | CallStartLogging filename => StartLogging filename
  | CallStopLogging => StopLogging
  | CallLogStatic log => LogStatic log
  | CallLog state disassemblyInfo operationInfo =>
      Log capacity state disassemblyInfo operationInfo
  | CallLogNonExec operationInfo => LogNonExec capacity operationInfo
  | CallGetExecutionTrace lineCount =>
      GetExecutionTrace capacity lineCount;; skip
  end.

(** The state after a list of calls, whatever their outcomes. *)
Definition run_calls (capacity : Z) (calls : list Call) (w : World) : World :=
  foldl (λ w c, exec (do_call capacity c) w) w calls.

(** [w'] differs from [w] at most in [_executionTrace]. *)
Definition trace_frame (w w' : World) : Prop :=
  ∃ s : string, w' = set_tl (set_executionTrace s (tl w)) w.

(** A computation on an output string that only appends to it: its
    outcome does not depend on what the string held, and what it held
    stays in front. *)
Definition appends {R} (m : M string R) : Prop :=
  ∀ output : string, m output = ((m "").1, output +:+ (m "").2).


(** The stream open on [path] and in good state. *)
Definition healthy (path : string) : ofstream :=
  {| of_path := Some path; of_fail := false |}.

(** The slots a trace read walks over: [Some] for a populated slot, [None]
    for an empty one. *)
Definition populated (cells : list (option RingWrite)) : list RingWrite :=
  omap id cells.

(** The members of the file session and the files on disk. *)
Definition file_side (w : World)
    : string * ofstream * bool * bool * gmap string string :=
  (_outputBuffer (tl w), _outputFile (tl w), _firstLine (tl w),
   _logToFile (tl w), disk w).

(** A computation that returns normally and changes at most the file
    session and the disk. *)
Definition framed (m : M World unit) : Prop :=
  ∀ w : World, ∃ w' : World, m w = (Ok (), w') ∧ file_frame w w'.

(** ** Recording while a session is active *)



(** The two calls through which events reach the logger. *)
Inductive LogCall :=
  | ViaLog (state : DebugState) (disassemblyInfo : option DisassemblyInfo)
           (operationInfo : OperationInfo)
  | ViaLogNonExec (operationInfo : OperationInfo).






Module SampleDenied.



(** An opcode fetch, which fails the condition and becomes pending. *)
Definition calls : list LogCall :=
  [ViaLog (Sample.state 0x8000) (Some Sample.sta) Sample.fetch].

End SampleDenied.

(** * Properties *)

(** ** Strings *)

Lemma string_app_cons (c : ascii) (s t : string) :
  String c s +:+ t = String c (s +:+ t).
Proof. reflexivity. Qed.

Lemma string_app_nil_l (s : string) : "" +:+ s = s.
Proof. reflexivity. Qed.

Lemma string_app_nil_r (s : string) : s +:+ "" = s.
Proof.
  induction s as [|c s IH]; [done|]. by rewrite string_app_cons, IH.
Qed.

Lemma string_app_assoc (s1 s2 s3 : string) :
  (s1 +:+ s2) +:+ s3 = s1 +:+ (s2 +:+ s3).
Proof.
  induction s1 as [|c s1 IH]; [done|]. by rewrite !string_app_cons, IH.
Qed.

Lemma string_length_app (s1 s2 : string) :
  String.length (s1 +:+ s2) = (String.length s1 + String.length s2)%nat.
Proof.
  induction s1 as [|c s1 IH]; [done|]. rewrite string_app_cons. simpl.
  by rewrite IH.
Qed.

Lemma string_length_fill (n : nat) (c : ascii) :
  String.length (string_fill n c) = n.
Proof. induction n as [|n IH]; simpl; [done|]. by rewrite IH. Qed.

Lemma string_of_list_app (l1 l2 : list ascii) :
  string_of_list (l1 ++ l2) = string_of_list l1 +:+ string_of_list l2.
Proof.
  induction l1 as [|c l1 IH]; simpl; [done|].
  by rewrite string_app_cons, IH.
Qed.

Lemma string_of_list_length (l : list ascii) :
  String.length (string_of_list l) = length l.
Proof. induction l as [|c l IH]; simpl; [done|]. by rewrite IH. Qed.

(** ** Status flags *)

Lemma land_0x80_testbit (x : Z) :
  negb (Z.land x 0x80 =? 0) = Z.testbit x 7.
Proof.
  change 0x80 with (2 ^ 7).
  destruct (Z.testbit x 7) eqn:Hb.
  - apply negb_true_iff, Z.eqb_neq. intros H0.
    assert (Z.testbit (Z.land x (2 ^ 7)) 7 = true) as Hl.
    { by rewrite Z.land_spec, Hb, Z.pow2_bits_true. }
    rewrite H0 in Hl. by rewrite Z.bits_0 in Hl.
  - apply negb_false_iff, Z.eqb_eq, Z.bits_inj'. intros k Hk.
    rewrite Z.land_spec, Z.bits_0.
    destruct (decide (k = 7)) as [->|Hne].
    + by rewrite Hb.
    + rewrite (Z.pow2_bits_false 7 k) by lia. apply andb_false_r.
Qed.

Lemma to_uint8_testbit_7 (ps : Z) (i : nat) :
  Z.testbit (to_uint8 (ps * 2 ^ Z.of_nat i)) 7 = Z.testbit ps (7 - Z.of_nat i).
Proof.
  unfold to_uint8. rewrite Z.mod_pow2_bits_low by lia.
  apply Z.mul_pow2_bits. lia.
Qed.

Lemma to_uint8_shift (ps : Z) (i : nat) :
  to_uint8 (Z.shiftl (to_uint8 (ps * 2 ^ Z.of_nat i)) 1)
  = to_uint8 (ps * 2 ^ Z.of_nat (S i)).
Proof.
  unfold to_uint8. rewrite Z.shiftl_mul_pow2 by lia.
  rewrite Z.mul_mod_idemp_l by lia.
  rewrite Nat2Z.inj_succ, Z.pow_succ_r by lia.
  f_equal. change (2 ^ 1) with 2. lia.
Qed.

(** The loop emits, for the positions it still has to visit, the
    characters read off the bits of the original byte, and takes one from
    [padding] per character. *)
Lemma GetStatusFlag_loop_spec (fmt : StatusFlagFormat) (ps : Z) (n i : nat)
    (output : string) (padding : Z) :
  GetStatusFlag_loop fmt n i (to_uint8 (ps * 2 ^ Z.of_nat i)) output padding
  = (output +:+ string_of_list (concat (map (flag_chars fmt ps) (seq i n))),
     padding - Z.of_nat (length (concat (map (flag_chars fmt ps) (seq i n))))).
Proof.
  revert i output padding.
  induction n as [|n IH]; intros i output padding.
  - simpl. rewrite string_app_nil_r. f_equal. lia.
  - cbn [GetStatusFlag_loop seq map concat].
    rewrite land_0x80_testbit, to_uint8_testbit_7, to_uint8_shift.
    unfold flag_chars at 1 3. unfold push_back.
    destruct (Z.testbit ps (7 - Z.of_nat i)); [|destruct (decide (fmt = Text))];
      rewrite IH, ?string_of_list_app, ?length_app; simpl;
      rewrite ?string_app_assoc; f_equal; lia.
Qed.

Lemma GetStatusFlag_not_hex (fmt : StatusFlagFormat) (output : string) (ps : Z) :
  fmt ≠ Hexadecimal → 0 ≤ ps < 256 →
  GetStatusFlag fmt output ps
  = output +:+ " P:" +:+ string_of_list (flag_field fmt ps)
    +:+ string_fill (6 - length (flag_field fmt ps)) " "%char.
Proof.
  intros Hfmt Hps. unfold GetStatusFlag.
  destruct (decide (fmt = Hexadecimal)) as [|_]; [done|].
  replace ps with (to_uint8 (ps * 2 ^ Z.of_nat 0)) at 1.
  2:{ unfold to_uint8. simpl. rewrite Z.mul_1_r. apply Z.mod_small. lia. }
  rewrite GetStatusFlag_loop_spec. fold (flag_field fmt ps).
  simpl. rewrite !string_app_assoc.
  destruct (0 <? 6 - Z.of_nat (length (flag_field fmt ps))) eqn:Hpad.
  - apply Z.ltb_lt in Hpad. repeat f_equal. lia.
  - apply Z.ltb_ge in Hpad.
    replace (6 - length (flag_field fmt ps))%nat with 0%nat by lia.
    simpl. by rewrite string_app_nil_r.
Qed.

Lemma flag_field_Text (ps : Z) :
  flag_field Text ps = map (text_letter ps) (seq 0 8).
Proof.
  unfold flag_field. generalize (seq 0 8). intros l.
  induction l as [|i l IH]; [done|].
  cbn [map concat]. rewrite IH. unfold flag_chars, text_letter.
  by destruct (Z.testbit ps (7 - Z.of_nat i)).
Qed.

Lemma flag_field_Text_lookup (ps : Z) (i : nat) :
  (i < 8)%nat →
  flag_field Text ps !! i
  = Some (if Z.testbit ps (7 - Z.of_nat i) then letter_at activeStatusLetters i
          else letter_at inactiveStatusLetters i).
Proof.
  intros Hi. rewrite flag_field_Text, list_lookup_fmap.
  by rewrite lookup_seq_lt.
Qed.

Lemma flag_field_Text_length (ps : Z) : length (flag_field Text ps) = 8%nat.
Proof. by rewrite flag_field_Text, length_map, length_seq. Qed.

Lemma flag_field_Abbreviated (ps : Z) :
  flag_field Abbreviated ps
  = map (letter_at activeStatusLetters)
        (filter (λ i : nat, Z.testbit ps (7 - Z.of_nat i) = true) (seq 0 8)).
Proof.
  unfold flag_field. generalize (seq 0 8). intros l.
  induction l as [|i l IH]; [done|].
  cbn [map concat]. rewrite filter_cons. unfold flag_chars at 1.
  destruct (Z.testbit ps (7 - Z.of_nat i)) eqn:Hb.
  - rewrite decide_True by done. simpl. by rewrite IH.
  - rewrite decide_False by done. simpl. by rewrite IH.
Qed.

Lemma flag_field_Abbreviated_length (ps : Z) :
  length (flag_field Abbreviated ps) = popcount8 ps.
Proof. by rewrite flag_field_Abbreviated, length_map. Qed.

Lemma popcount8_le (ps : Z) : (popcount8 ps ≤ 8)%nat.
Proof.
  unfold popcount8.
  etrans; [apply length_filter|]. by rewrite length_seq.
Qed.

(** C3, as the code has it.  In Text mode the status field is [" P:"]
    followed by exactly eight characters, one per bit from the most
    significant down, in the order N,V,B,-,D,I,Z,C: the upper-case letter
    when the bit is set and the lower-case letter when it is clear (the
    fourth position is ['-'] either way).  For the byte 0b10010001 the
    field reads [Nvb-dizC]. *)
Theorem GetStatusFlag_Text (ps : Z) (output : string) :
  0 ≤ ps < 256 →
  GetStatusFlag Text output ps
    = output +:+ " P:" +:+ string_of_list (flag_field Text ps) ∧
  length (flag_field Text ps) = 8%nat ∧
  (∀ i : nat, (i < 8)%nat →
     flag_field Text ps !! i
     = Some (if Z.testbit ps (7 - Z.of_nat i)
             then letter_at activeStatusLetters i
             else letter_at inactiveStatusLetters i)) ∧
  (ps = 0x91 → string_of_list (flag_field Text ps) = "Nvb-dizC").
Proof.
  intros Hps. split; [|split; [|split]].
  - rewrite GetStatusFlag_not_hex by done.
    rewrite flag_field_Text_length. simpl.
    by rewrite string_app_nil_r.
  - apply flag_field_Text_length.
  - intros i Hi. by apply flag_field_Text_lookup.
  - intros ->. reflexivity.
Qed.

Lemma GetStatusFlag_Text_witness :
  0 ≤ 0x91 < 256 ∧ GetStatusFlag Text "" 0x91 = " P:Nvb-dizC".
Proof.
  split; [lia|].
  destruct (GetStatusFlag_Text 0x91 "") as (Hout & _ & _ & Hfield); [lia|].
  rewrite Hout, Hfield; reflexivity.
Defined.

(** C3 as stated fails: byte 0b10010001 does not render as [Nv-B-d-ZC],
    which has nine characters; the field has eight. *)
Lemma GetStatusFlag_Text_0x91_differs :
  GetStatusFlag Text "" 0x91 = " P:Nvb-dizC" ∧
  GetStatusFlag Text "" 0x91 ≠ " P:Nv-B-d-ZC" ∧
  GetStatusFlag Text "" 0x91 ≠ "Nv-B-d-ZC" ∧
  String.length "Nv-B-d-ZC" = 9%nat.
Proof. vm_compute. repeat split; discriminate. Qed.

(** C7, as the code has it.  In the abbreviated mode only the set bits
    emit a character, their upper-case letter in the order
    N,V,B,-,D,I,Z,C; spaces are added on the right up to a width of 6, so
    the field is 6 characters wide when at most six bits are set and 7 or
    8 characters wide, without padding, when seven or eight are. *)
Theorem GetStatusFlag_Abbreviated (ps : Z) (output : string) :
  0 ≤ ps < 256 →
  GetStatusFlag Abbreviated output ps
    = output +:+ " P:" +:+ string_of_list (flag_field Abbreviated ps)
      +:+ string_fill (6 - popcount8 ps) " "%char ∧
  flag_field Abbreviated ps
    = map (letter_at activeStatusLetters)
          (filter (λ i : nat, Z.testbit ps (7 - Z.of_nat i) = true) (seq 0 8)) ∧
  String.length (string_of_list (flag_field Abbreviated ps)
                 +:+ string_fill (6 - popcount8 ps) " "%char)
    = (6 `max` popcount8 ps)%nat.
Proof.
  intros Hps. split; [|split].
  - rewrite GetStatusFlag_not_hex by done.
    by rewrite flag_field_Abbreviated_length.
  - apply flag_field_Abbreviated.
  - rewrite string_length_app, string_of_list_length, string_length_fill,
      flag_field_Abbreviated_length. lia.
Qed.

Lemma GetStatusFlag_Abbreviated_witness :
  0 ≤ 0x91 < 256 ∧ GetStatusFlag Abbreviated "" 0x91 = " P:N-C   ".
Proof.
  split; [lia|].
  destruct (GetStatusFlag_Abbreviated 0x91 "") as (Hout & _ & _); [lia|].
  rewrite Hout; reflexivity.
Defined.

(** C7 as stated fails: with all eight bits set nothing is padded and the
    field is eight characters wide, not six. *)
Lemma GetStatusFlag_Abbreviated_0xFF_width :
  GetStatusFlag Abbreviated "" 0xFF = " P:NVB-DIZC" ∧
  String.length "NVB-DIZC" ≠ 6%nat.
Proof. vm_compute. split; [reflexivity|discriminate]. Qed.

(** ** The monad *)

(** Unfold the plumbing of the monad. *)
Ltac msimpl :=
  cbv [mbind M_bind mret M_ret skip update modify get this raise exec outcome
       fst snd zoom on_outputBuffer on_executionTrace].

Lemma bind_Ok {S R1 R2} (m : M S R1) (k : R1 → M S R2) (s s' : S) (r : R1) :
  m s = (Ok r, s') → (m ≫= k) s = k r s'.
Proof. intros H. unfold mbind, M_bind. by rewrite H. Qed.

Lemma bind_Raise {S R1 R2} (m : M S R1) (k : R1 → M S R2) (s s' : S) (e : Fault) :
  m s = (Raise e, s') → (m ≫= k) s = (Raise e, s').
Proof. intros H. unfold mbind, M_bind. by rewrite H. Qed.

Lemma array_store_ok {S T} (a : list T) (i : Z) (v : T) (s : S) :
  0 ≤ i < Z.of_nat (length a) →
  array_store a i v s = (Ok (<[Z.to_nat i := v]> a), s).
Proof.
  intros Hi. unfold array_store.
  assert ((0 <=? i) && (i <? Z.of_nat (length a)) = true) as ->; [|done].
  apply andb_true_iff. split; [apply Z.leb_le|apply Z.ltb_lt]; lia.
Qed.

Lemma array_load_ok {S T} (a : list T) (i : Z) (v : T) (s : S) :
  0 ≤ i → a !! Z.to_nat i = Some v → array_load (S:=S) a i s = (Ok v, s).
Proof.
  intros Hi Hv. unfold array_load.
  assert ((0 <=? i) = true) as -> by (apply Z.leb_le; lia). by rewrite Hv.
Qed.

Lemma array_load_negative {S T} (a : list T) (i : Z) (s : S) :
  i < 0 → array_load (S:=S) a i s = (Raise OutOfBounds, s).
Proof.
  intros Hi. unfold array_load.
  by assert ((0 <=? i) = false) as -> by (apply Z.leb_gt; lia).
Qed.

(** ** [AddRow] in two halves *)


Lemma AddRow_unfold (capacity : Z) (r : HandleRef) (state : DebugState) (w : World) :
  ring_ok capacity (tl w) →
  AddRow capacity r state w
  = AddRow_file (after_reset r) state
      (set_tl (ring_write capacity
                 (match r with
                  | Local h => h
                  | LastDisassemblyInfo => _lastDisassemblyInfo (tl w)
                  end) state (tl w)) w).
Proof.
  intros (Hpos & Hd & Hc & Hp). unfold AddRow.
  erewrite bind_Ok by reflexivity.
  destruct r as [h|].
  all: erewrite bind_Ok by reflexivity.
  all: erewrite bind_Ok by (apply array_store_ok; lia).
  all: erewrite bind_Ok by reflexivity.
  all: erewrite bind_Ok by (apply array_store_ok; simpl; lia).
  all: erewrite bind_Ok by reflexivity.
  all: erewrite bind_Ok by (apply array_store_ok; simpl; lia).
  all: do 3 (erewrite bind_Ok by reflexivity).
  all: unfold AddRow_file.
  all: erewrite !(bind_Ok this) by reflexivity.
  all: destruct w as [t ? ? ? ? ?]; destruct t; cbn in *.
  all: match goal with |- context [if ?b then _ else _] => destruct b end.
  all: reflexivity.
Qed.

Lemma file_frame_refl (w : World) : file_frame w w.
Proof.
  exists (_outputBuffer (tl w)), (_outputFile (tl w)), (_firstLine (tl w)), (disk w).
  by destruct w as [[] ? ? ? ? ?].
Qed.

Lemma file_frame_trans (w1 w2 w3 : World) :
  file_frame w1 w2 → file_frame w2 w3 → file_frame w1 w3.
Proof.
  intros (b1 & f1 & l1 & d1 & ->) (b2 & f2 & l2 & d2 & ->).
  by exists b2, f2, l2, d2.
Qed.

Lemma file_frame_ring (w w' : World) : file_frame w w' → ring_of w' = ring_of w.
Proof. by intros (b & f & l & d & ->). Qed.

Lemma frame_set_outputBuffer (b : string) (w : World) :
  file_frame w (set_tl (set_outputBuffer b (tl w)) w).
Proof.
  exists b, (_outputFile (tl w)), (_firstLine (tl w)), (disk w).
  by destruct w as [[] ? ? ? ? ?].
Qed.

Lemma frame_set_outputFile (f : ofstream) (w : World) :
  file_frame w (set_tl (set_outputFile f (tl w)) w).
Proof.
  exists (_outputBuffer (tl w)), f, (_firstLine (tl w)), (disk w).
  by destruct w as [[] ? ? ? ? ?].
Qed.

Lemma frame_set_firstLine (l : bool) (w : World) :
  file_frame w (set_tl (set_firstLine l (tl w)) w).
Proof.
  exists (_outputBuffer (tl w)), (_outputFile (tl w)), l, (disk w).
  by destruct w as [[] ? ? ? ? ?].
Qed.

Lemma frame_set_disk (d : gmap string string) (w : World) :
  file_frame w (set_disk d w).
Proof.
  exists (_outputBuffer (tl w)), (_outputFile (tl w)), (_firstLine (tl w)), d.
  by destruct w as [[] ? ? ? ? ?].
Qed.

Lemma ofstream_write_frame (s : string) (w : World) :
  outcome (ofstream_write s) w = Ok () ∧ file_frame w (exec (ofstream_write s) w).
Proof.
  unfold outcome, exec, ofstream_write.
  destruct (of_fail (_outputFile (tl w))); [split; [done|apply file_frame_refl]|].
  destruct (of_path (_outputFile (tl w))) as [p|].
  - split; [done|]. apply frame_set_disk.
  - destruct (decide (s = "")); (split; [done|]); [apply file_frame_refl|].
    apply frame_set_outputFile.
Qed.

Lemma AddRow_file_idle (h : option DisassemblyInfo) (state : DebugState) (w : World) :
  _logToFile (tl w) = false → AddRow_file h state w = (Ok (), w).
Proof.
  intros Hlog. unfold AddRow_file. erewrite bind_Ok by reflexivity.
  by rewrite Hlog.
Qed.

Lemma AddRow_file_frame (h : option DisassemblyInfo) (state : DebugState) (w : World) :
  file_frame w (exec (AddRow_file h state) w).
Proof.
  unfold exec, AddRow_file. erewrite bind_Ok by reflexivity.
  destruct (_logToFile (tl w)); [|apply file_frame_refl].
  unfold on_outputBuffer, zoom, mbind at 1, M_bind at 1.
  destruct (GetTraceRow _ _ _ _ _ _) as [[[]|e] buffer];
    [|apply frame_set_outputBuffer].
  set (w1 := set_tl (set_outputBuffer buffer (tl w)) w).
  assert (file_frame w w1) as Hw1 by apply frame_set_outputBuffer.
  erewrite bind_Ok by reflexivity.
  assert (∀ w2, file_frame w w2 →
            file_frame w (update (set_firstLine false) w2).2) as Hlast.
  { intros w2 Hw2. eapply file_frame_trans; [exact Hw2|].
    apply frame_set_firstLine. }
  destruct (32768 <? len (_outputBuffer (tl w1))).
  - destruct (ofstream_write_frame (_outputBuffer (tl w1)) w1) as [Hok Hfr].
    unfold outcome, exec in *.
    destruct (ofstream_write (_outputBuffer (tl w1)) w1) as [r w2] eqn:Hwr.
    simpl in Hok, Hfr. subst r.
    unfold mbind, M_bind. rewrite Hwr. cbn [update modify].
    apply (Hlast (set_tl (set_outputBuffer "" (tl w2)) w2)).
    eapply file_frame_trans; [exact Hw1|].
    eapply file_frame_trans; [exact Hfr|].
    apply frame_set_outputBuffer.
  - unfold mbind, M_bind. cbn [skip mret M_ret]. by apply Hlast.
Qed.

(** ** The ring store *)

Lemma ring_ok_ring_of (capacity : Z) (w w' : World) :
  ring_of w' = ring_of w → ring_ok capacity (tl w) → ring_ok capacity (tl w').
Proof.
  unfold ring_of, ring_ok. intros Heq. injection Heq as Hd Hc Hp Hpos _ _ _.
  by rewrite Hd, Hc, Hp, Hpos.
Qed.

Lemma slot_ring_of (w w' : World) (i : nat) :
  ring_of w' = ring_of w → slot (tl w') i = slot (tl w) i.
Proof.
  unfold ring_of, slot. intros Heq. injection Heq as Hd Hc Hp _ _ _ _.
  by rewrite Hd, Hc, Hp.
Qed.

Lemma rem_cursor (capacity pos : Z) :
  0 < capacity → 0 ≤ pos < capacity →
  (pos + 1) `rem` capacity = (pos + 1) `mod` capacity.
Proof. intros. apply Z.rem_mod_nonneg; lia. Qed.

Lemma ring_write_ok (capacity : Z) (h : option DisassemblyInfo)
    (state : DebugState) (t : TraceLogger) :
  ring_ok capacity t → ring_ok capacity (ring_write capacity h state t).
Proof.
  intros (Hpos & Hd & Hc & Hp). unfold ring_ok, ring_write. simpl.
  rewrite !length_insert. repeat split; try done.
  - rewrite rem_cursor by lia. apply Z.mod_pos_bound. lia.
  - rewrite rem_cursor by lia. apply Z.mod_pos_bound. lia.
Qed.

Lemma ring_write_slot_eq (capacity : Z) (h : option DisassemblyInfo)
    (state : DebugState) (t : TraceLogger) :
  ring_ok capacity t →
  slot (ring_write capacity h state t) (Z.to_nat (_currentPos t))
  = Some (h, CPU state, PPU state).
Proof.
  intros (Hpos & Hd & Hc & Hp). unfold slot, ring_write. simpl.
  by rewrite !list_lookup_insert_eq by lia.
Qed.

Lemma ring_write_slot_ne (capacity : Z) (h : option DisassemblyInfo)
    (state : DebugState) (t : TraceLogger) (i : nat) :
  i ≠ Z.to_nat (_currentPos t) →
  slot (ring_write capacity h state t) i = slot t i.
Proof.
  intros Hi. unfold slot, ring_write. simpl.
  by rewrite !list_lookup_insert_ne by done.
Qed.

(** Under the ring invariant [AddRow] leaves the ring as [ring_write]
    does, whatever becomes of the file row. *)
Lemma AddRow_ring (capacity : Z) (r : HandleRef) (state : DebugState) (w : World) :
  ring_ok capacity (tl w) →
  ring_of (exec (AddRow capacity r state) w)
  = ring_of (set_tl (ring_write capacity
                       (match r with
                        | Local h => h
                        | LastDisassemblyInfo => _lastDisassemblyInfo (tl w)
                        end) state (tl w)) w).
Proof.
  intros Hok. unfold exec. rewrite AddRow_unfold by done.
  apply file_frame_ring, AddRow_file_frame.
Qed.

(** ** The condition gate *)

Lemma ConditionMatches_empty (state : DebugState) (r : HandleRef)
    (operationInfo : OperationInfo) (w : World) :
  _conditionRpnList (tl w) = [] →
  ConditionMatches state r operationInfo w = (Ok true, w).
Proof.
  intros Hrpn. unfold ConditionMatches. erewrite bind_Ok by reflexivity.
  by rewrite Hrpn.
Qed.

Lemma SetOptions_no_program (options : TraceLoggerOptions) (w : World) :
  Condition options = "" ∨
  GetRpnList (_expEvaluator (tl w)) (Condition options) = None →
  _conditionRpnList (tl (exec (SetOptions options) w)) = [].
Proof.
  intros Hcond. unfold exec, SetOptions.
  do 2 (erewrite bind_Ok by reflexivity).
  destruct (decide (Condition options = "")) as [|Hne]; [done|].
  destruct Hcond as [|Hnone]; [done|].
  erewrite bind_Ok by reflexivity. cbn [tl set_tl].
  change (_expEvaluator (set_conditionRpnList [] (set_options options (tl w))))
    with (_expEvaluator (tl w)).
  by rewrite Hnone.
Qed.

(** C10.  [Log] with a null disassembly handle does nothing at all: it
    returns at once, the evaluator is not asked, and the whole state (ring,
    cursor, pending instruction, file buffer, [_firstLine], files) is as
    before. *)
Theorem Log_null_handle (capacity : Z) (state : DebugState)
    (operationInfo : OperationInfo) (w : World) :
  Log capacity state None operationInfo w = (Ok (), w).
Proof. reflexivity. Qed.

(** C8.  When the compiled condition is empty, which is also what
    [SetOptions] leaves when the condition text is empty or does not
    compile, the gate answers true without asking the evaluator, and
    [Log] with a handle stores exactly one entry, at the cursor, leaves
    every other slot alone and advances the cursor by one modulo the
    capacity. *)
Theorem Log_empty_condition (capacity : Z) (state : DebugState)
    (d : DisassemblyInfo) (operationInfo : OperationInfo) (w : World) :
  0 < capacity → ring_ok capacity (tl w) → _conditionRpnList (tl w) = [] →
  let w' := exec (Log capacity state (Some d) operationInfo) w in
  let pos := Z.to_nat (_currentPos (tl w)) in
  ConditionMatches state (Local (Some d)) operationInfo w = (Ok true, w) ∧
  evalCalls w' = evalCalls w ∧
  slot (tl w') pos = Some (Some d, CPU state, PPU state) ∧
  (∀ i : nat, i ≠ pos → slot (tl w') i = slot (tl w) i) ∧
  _currentPos (tl w') = (_currentPos (tl w) + 1) `mod` capacity ∧
  ring_ok capacity (tl w') ∧
  (∀ (options : TraceLoggerOptions) (w0 : World),
     Condition options = "" ∨
     GetRpnList (_expEvaluator (tl w0)) (Condition options) = None →
     _conditionRpnList (tl (exec (SetOptions options) w0)) = []).
Proof.
  intros Hcap Hok Hrpn w' pos.
  assert (ring_of w' = ring_of (set_tl (ring_write capacity (Some d) state (tl w)) w))
    as Hring.
  { subst w'. unfold exec, Log.
    erewrite bind_Ok by (by apply ConditionMatches_empty).
    by apply (AddRow_ring capacity (Local (Some d))). }
  split; [by apply ConditionMatches_empty|].
  split; [by injection Hring|].
  split.
  { rewrite (slot_ring_of _ _ _ Hring). by apply (ring_write_slot_eq capacity). }
  split.
  { intros i Hi. rewrite (slot_ring_of _ _ _ Hring).
    by apply (ring_write_slot_ne capacity). }
  split.
  { injection Hring as _ _ _ Hpos _ _ _. rewrite Hpos. simpl.
    apply rem_cursor; [done|apply Hok]. }
  split.
  { apply (ring_ok_ring_of _ _ _ Hring). by apply ring_write_ok. }
  intros options w0. by apply SetOptions_no_program.
Qed.
Lemma Log_empty_condition_witness :
  slot (tl (exec (Log 4 (Sample.state 0x8000) (Some Sample.nop) Sample.fetch)
                 (Sample.world 4))) 0
    = Some (Some Sample.nop, Sample.cpu 0x8000, Sample.ppu) ∧
  _currentPos (tl (exec (Log 4 (Sample.state 0x8000) (Some Sample.nop) Sample.fetch)
                        (Sample.world 4))) = 1.
Proof.
  assert (ring_ok 4 (tl (Sample.world 4))) as Hok.
  { unfold ring_ok. simpl. lia. }
  destruct (Log_empty_condition 4 (Sample.state 0x8000) Sample.nop Sample.fetch
              (Sample.world 4)) as (_ & _ & Hslot & _ & Hpos & _);
    [lia|exact Hok|reflexivity|].
  split; [exact Hslot|exact Hpos].
Defined.


Lemma ConditionMatches_spec (state : DebugState) (r : HandleRef)
    (operationInfo : OperationInfo) (w : World) :
  ConditionMatches state r operationInfo w
  = if bool_decide (_conditionRpnList (tl w) = []) then (Ok true, w)
    else
      let w1 := set_evalCalls (S (evalCalls w)) w in
      if Evaluate (_expEvaluator (tl w)) (_conditionRpnList (tl w)) state operationInfo
      then (Ok true, w1)
      else
        (Ok false,
         if decide (OperationType operationInfo = ExecOpCode) then
           set_tl (set_lastDisassemblyInfo
                     (match r with
                      | Local h => h
                      | LastDisassemblyInfo => _lastDisassemblyInfo (tl w)
                      end) (set_lastState state (tl w))) w1
         else w1).
Proof.
  unfold ConditionMatches. erewrite bind_Ok by reflexivity.
  destruct (bool_decide (_conditionRpnList (tl w) = [])); [done|].
  cbn [negb]. erewrite bind_Ok by reflexivity. cbn [tl set_evalCalls].
  destruct (Evaluate _ _ _ _); [done|]. cbn [negb].
  destruct (decide (OperationType operationInfo = ExecOpCode)); [|done].
  destruct r; by destruct w as [[] ? ? ? ? ?].
Qed.

(** ** The file session *)

Lemma ofstream_write_healthy (s p : string) (w : World) :
  _outputFile (tl w) = {| of_path := Some p; of_fail := false |} →
  ofstream_write s w
  = (Ok (), set_disk (<[p := file_content w p +:+ s]> (disk w)) w).
Proof. intros Hf. unfold ofstream_write. by rewrite Hf. Qed.

Lemma ofstream_write_disk_append (s s0 p : string) (w : World) :
  _outputFile (tl w) = {| of_path := Some p; of_fail := false |} →
  ofstream_write s (disk_append w p s0) = (Ok (), disk_append w p (s0 +:+ s)).
Proof.
  intros Hf. erewrite ofstream_write_healthy by exact Hf.
  unfold disk_append, file_content, set_disk. cbn [disk tl].
  rewrite lookup_insert_eq, insert_insert_eq. cbn.
  by rewrite string_app_assoc.
Qed.

Lemma disk_append_set_outputBuffer (b p s : string) (w : World) :
  set_tl (set_outputBuffer b (tl (disk_append w p s))) (disk_append w p s)
  = disk_append (set_tl (set_outputBuffer b (tl w)) w) p s.
Proof. reflexivity. Qed.

Lemma ofstream_write_failed (s : string) (w : World) :
  of_fail (_outputFile (tl w)) = true → ofstream_write s w = (Ok (), w).
Proof. intros Hf. unfold ofstream_write. by rewrite Hf. Qed.

Lemma ofstream_write_Ok (s : string) (w : World) :
  ∃ w', ofstream_write s w = (Ok (), w') ∧
        _outputBuffer (tl w') = _outputBuffer (tl w).
Proof.
  unfold ofstream_write. destruct (of_fail _); [by eexists|].
  destruct (of_path _); [by eexists|].
  destruct (decide _); by eexists.
Qed.

Lemma StartLogging_firstLine (filename : string) (w : World) :
  _firstLine (tl (exec (StartLogging filename) w)) = true ∧
  _logToFile (tl (exec (StartLogging filename) w)) = true.
Proof.
  unfold StartLogging, ofstream_open. msimpl.
  destruct (of_path (_outputFile (tl w))); [done|].
  by destruct (decide (filename ∈ denied w)).
Qed.

Lemma AddRow_file_firstLine (h : option DisassemblyInfo) (state : DebugState)
    (w : World) :
  _logToFile (tl w) = true →
  outcome (AddRow_file h state) w = Ok () →
  _firstLine (tl (exec (AddRow_file h state) w)) = false.
Proof.
  intros Hlog. unfold AddRow_file. msimpl. rewrite Hlog.
  destruct (GetTraceRow _ _ _ _ _ _) as [[[]|e] buffer]; [|done].
  destruct (32768 <? len _); [|done].
  unfold ofstream_write. repeat case_match; simplify_eq; done.
Qed.

Lemma AddRow_firstLine (capacity : Z) (r : HandleRef) (state : DebugState)
    (w : World) :
  ring_ok capacity (tl w) → _logToFile (tl w) = true →
  outcome (AddRow capacity r state) w = Ok () →
  _firstLine (tl (exec (AddRow capacity r state) w)) = false.
Proof.
  intros Hok Hlog. unfold outcome, exec. rewrite AddRow_unfold by done.
  by apply AddRow_file_firstLine.
Qed.

(** C9.  [LogStatic] does nothing unless a session is active, the
    extra-info option is on and [_firstLine] is false, that is, a row has
    been written since [StartLogging] ([StartLogging] sets the flag, a
    row written during a session clears it).  When the three hold for the
    live logger it empties the buffer; with a healthy sink the file gains
    the buffered text followed by the suffix
    [ - [<log> - Cycle: <count>]], which never passes through the buffer;
    with a sink in error state nothing reaches the disk. *)
Theorem LogStatic_spec (log : string) (w : World) :
  let t := tl w in
  let effective :=
    _logToFile t && ShowExtraInfo (_options t) && negb (_firstLine t) in
  (effective = false → LogStatic log w = (Ok (), w)) ∧
  (_instance w = true → effective = true →
     let w' := exec (LogStatic log) w in
     outcome (LogStatic log) w = Ok () ∧
     _outputBuffer (tl w') = "" ∧
     (∀ p : string,
        _outputFile t = {| of_path := Some p; of_fail := false |} →
        w' = set_disk
               (<[p := file_content w p +:+ _outputBuffer t +:+
                       " - [" +:+ log +:+ " - Cycle: " +:+
                       pretty (cycleCount w) +:+ "]"]> (disk w))
               (set_tl (set_outputBuffer "" t) w)) ∧
     (of_fail (_outputFile t) = true →
        w' = set_tl (set_outputBuffer "" t) w)) ∧
  (∀ (filename : string) (w0 : World),
     _firstLine (tl (exec (StartLogging filename) w0)) = true) ∧
  (∀ (capacity : Z) (r : HandleRef) (state : DebugState) (w0 : World),
     ring_ok capacity (tl w0) → _logToFile (tl w0) = true →
     outcome (AddRow capacity r state) w0 = Ok () →
     _firstLine (tl (exec (AddRow capacity r state) w0)) = false).
Proof.
  intros t effective. split; [|split; [|split]].
  - intros Heff. unfold LogStatic. msimpl. fold t.
    subst effective.
    destruct (_instance w), (_logToFile t), (ShowExtraInfo (_options t)),
      (_firstLine t); simpl in *; done.
  - intros Hinst Heff w'.
    assert (LogStatic log w
            = (ofstream_write (_outputBuffer t);;
               update (set_outputBuffer "");;
               ofstream_write " - [";;
               ofstream_write log;;
               ofstream_write " - Cycle: ";;
               ofstream_write (pretty (cycleCount w));;
               ofstream_write "]") w) as Hrun.
    { unfold LogStatic. erewrite bind_Ok by reflexivity. fold t.
      subst effective. rewrite Hinst.
      destruct (_logToFile t), (ShowExtraInfo (_options t)), (_firstLine t);
        simpl in *; done. }
    subst w'. unfold outcome, exec. rewrite Hrun. clear Hrun Heff effective.
    assert (∀ w0 : World, _outputBuffer (tl w0) = "" →
              ∃ w1, (ofstream_write " - [";;
                     ofstream_write log;;
                     ofstream_write " - Cycle: ";;
                     ofstream_write (pretty (cycleCount w));;
                     ofstream_write "]") w0 = (Ok (), w1)
                    ∧ _outputBuffer (tl w1) = "") as Htail.
    { intros w0 Hb0.
      destruct (ofstream_write_Ok " - [" w0) as (w1 & H1 & Hb1).
      erewrite bind_Ok by exact H1.
      destruct (ofstream_write_Ok log w1) as (w2 & H2 & Hb2).
      erewrite bind_Ok by exact H2.
      destruct (ofstream_write_Ok " - Cycle: " w2) as (w3 & H3 & Hb3).
      erewrite bind_Ok by exact H3.
      destruct (ofstream_write_Ok (pretty (cycleCount w)) w3) as (w4 & H4 & Hb4).
      erewrite bind_Ok by exact H4.
      destruct (ofstream_write_Ok "]" w4) as (w5 & H5 & Hb5).
      exists w5. split; [done|]. congruence. }
    destruct (ofstream_write_Ok (_outputBuffer t) w) as (w1 & H1 & _).
    destruct (Htail (set_tl (set_outputBuffer "" (tl w1)) w1)) as (w2 & H2 & Hb2);
      [done|].
    split_and!.
    + erewrite bind_Ok by exact H1. erewrite bind_Ok by reflexivity.
      cbn [update modify]. by rewrite H2.
    + erewrite bind_Ok by exact H1. erewrite bind_Ok by reflexivity.
      cbn [update modify]. by rewrite H2.
    + intros p Hp. subst t.
      erewrite bind_Ok by (by apply ofstream_write_healthy).
      erewrite bind_Ok by reflexivity. cbn [update modify].
      fold (disk_append w p (_outputBuffer (tl w))).
      rewrite disk_append_set_outputBuffer.
      assert (_outputFile (tl (set_tl (set_outputBuffer "" (tl w)) w))
              = {| of_path := Some p; of_fail := false |}) as Hp' by done.
      do 4 (erewrite bind_Ok by (by apply ofstream_write_disk_append)).
      erewrite ofstream_write_disk_append by done. cbn [snd].
      by rewrite !string_app_assoc.
    + intros Hfail. subst t.
      erewrite bind_Ok by (by apply ofstream_write_failed).
      erewrite bind_Ok by reflexivity. cbn [update modify].
      do 4 (erewrite bind_Ok by (by apply ofstream_write_failed)).
      by erewrite ofstream_write_failed.
  - intros filename w0. apply StartLogging_firstLine.
  - intros capacity r state w0. apply AddRow_firstLine.
Qed.
Lemma LogStatic_spec_witness :
  _outputBuffer (tl (exec (LogStatic "NMI") Sample.one_row)) = "" ∧
  disk (exec (LogStatic "NMI") Sample.one_row) !! "a.log"
    = Some (Sample.row "8000  NOP" +:+ " - [NMI - Cycle: 1234]").
Proof.
  destruct (LogStatic_spec "NMI" Sample.one_row) as (_ & Heff & _).
  destruct (Heff eq_refl eq_refl) as (_ & Hbuf & Hhealthy & _).
  split; [exact Hbuf|].
  rewrite (Hhealthy "a.log" eq_refl). vm_compute. reflexivity.
Defined.


Lemma ring_of_ring_write (capacity : Z) (h : option DisassemblyInfo)
    (state : DebugState) (w : World) :
  ring_of (set_tl (ring_write capacity h state (tl w)) w)
  = ring_write_view capacity h state (ring_of w).
Proof. reflexivity. Qed.

(** What [Log] does to the ring, the pending instruction and the call
    count is a function of those members, the compiled condition and the
    evaluator alone. *)
Lemma Log_ring (capacity : Z) (state : DebugState) (d : DisassemblyInfo)
    (operationInfo : OperationInfo) (w : World) :
  ring_ok capacity (tl w) →
  ring_of (exec (Log capacity state (Some d) operationInfo) w)
  = Log_view capacity (_conditionRpnList (tl w)) (_expEvaluator (tl w))
      state d operationInfo (ring_of w).
Proof.
  intros Hok. unfold exec, Log, Log_view.
  pose proof (ConditionMatches_spec state (Local (Some d)) operationInfo w) as Hgate.
  destruct (bool_decide (_conditionRpnList (tl w) = [])).
  { erewrite bind_Ok by exact Hgate.
    rewrite <-ring_of_ring_write. by apply (AddRow_ring capacity (Local (Some d))). }
  cbn zeta in Hgate.
  destruct (Evaluate _ _ _ _).
  { erewrite bind_Ok by exact Hgate.
    etrans; [by apply (AddRow_ring capacity (Local (Some d)))|]. reflexivity. }
  erewrite bind_Ok by exact Hgate.
  by destruct (decide (OperationType operationInfo = ExecOpCode)).
Qed.

Lemma StopLogging_buffer (w : World) :
  _outputBuffer (tl (exec StopLogging w)) = _outputBuffer (tl w).
Proof.
  unfold StopLogging. msimpl. destruct (_logToFile (tl w)); [|done].
  destruct (ofstream_good _); [|done].
  destruct (decide (_outputBuffer (tl w) = "")).
  - unfold ofstream_close. by destruct (of_path _).
  - destruct (ofstream_write_Ok (_outputBuffer (tl w)) w) as (w1 & -> & Hb).
    unfold ofstream_close. by destruct (of_path _).
Qed.

Lemma StartLogging_buffer (filename : string) (w : World) :
  _outputBuffer (tl (exec (StartLogging filename) w)) = _outputBuffer (tl w).
Proof.
  unfold StartLogging, ofstream_open. msimpl.
  destruct (of_path (_outputFile (tl w))); [done|].
  by destruct (decide (filename ∈ denied w)).
Qed.

(** C1, what the code does instead.  [StopLogging] writes the buffer out
    but does not clear it, and [StartLogging] does not clear it either:
    the new session starts with [_firstLine] reset but with the previous
    session's text still buffered, and that text ends up in the new file.
    Evaluated on two sessions of one row each: the second file holds the
    row of the first session followed, without a line break, by its own. *)
Theorem StopLogging_StartLogging_keeps_buffer :
  (∀ (filename : string) (w : World),
     _outputBuffer (tl (exec (StartLogging filename) (exec StopLogging w)))
       = _outputBuffer (tl w) ∧
     _firstLine (tl (exec (StartLogging filename) (exec StopLogging w))) = true) ∧
  disk Sample.second_session !! "a.log" = Some (Sample.row "8000  NOP") ∧
  _outputBuffer (tl Sample.second_session) = Sample.row "8000  NOP" ∧
  _firstLine (tl Sample.second_session) = true ∧
  disk Sample.second_session_done !! "b.log"
    = Some (Sample.row "8000  NOP" +:+ Sample.row "8001  INX").
Proof.
  split.
  - intros filename w. split.
    + by rewrite StartLogging_buffer, StopLogging_buffer.
    + apply StartLogging_firstLine.
  - vm_compute. done.
Qed.

(** ** Idle and recording *)

(** [StopLogging] always ends in the idle state, and does nothing when the
    logger is idle already. *)
Lemma StopLogging_idle (w : World) :
  _logToFile (tl (exec StopLogging w)) = false ∧
  (_logToFile (tl w) = false → StopLogging w = (Ok (), w)).
Proof.
  unfold StopLogging. msimpl. destruct (_logToFile (tl w)) eqn:Hlog; [|done].
  split; [|done].
  destruct (ofstream_good _); [|done].
  destruct (decide (_outputBuffer (tl w) = "")).
  - unfold ofstream_close. by destruct (of_path _).
  - destruct (ofstream_write_Ok (_outputBuffer (tl w)) w) as (w1 & -> & _).
    unfold ofstream_close. by destruct (of_path _).
Qed.

(** With a healthy sink [StopLogging] leaves the buffered text in the
    file before closing it. *)
Lemma StopLogging_flushes (p : string) (w : World) :
  _logToFile (tl w) = true →
  _outputFile (tl w) = {| of_path := Some p; of_fail := false |} →
  file_content (exec StopLogging w) p = file_content w p +:+ _outputBuffer (tl w) ∧
  of_path (_outputFile (tl (exec StopLogging w))) = None.
Proof.
  intros Hlog Hfile. unfold StopLogging. msimpl.
  rewrite Hlog, Hfile. cbn [ofstream_good of_fail negb].
  destruct (decide (_outputBuffer (tl w) = "")) as [Hempty|Hne].
  - unfold ofstream_close. rewrite Hfile. cbn. by rewrite Hempty, string_app_nil_r.
  - rewrite (ofstream_write_healthy _ p) by done.
    unfold ofstream_close. cbn. rewrite Hfile. cbn.
    unfold file_content. cbn. by rewrite lookup_insert_eq.
Qed.

(** ** The ring invariant *)

Lemma TraceLogger_new_ring_ok (capacity : Z) (ev : ExpressionEvaluator)
    (mm : option MemoryManager) (lm : option LabelManager) (u : Uninitialised) :
  0 < capacity → ring_ok capacity (TraceLogger_new capacity ev mm lm u).
Proof.
  intros Hcap. unfold ring_ok. cbn. rewrite !length_replicate. lia.
Qed.

Lemma ring_write_view_ok (capacity : Z) (h : option DisassemblyInfo)
    (state : DebugState) (w w' : World) :
  ring_ok capacity (tl w) →
  ring_of w' = ring_write_view capacity h state (ring_of w) →
  ring_ok capacity (tl w').
Proof.
  intros Hok Hring.
  apply (ring_ok_ring_of capacity
           (set_tl (ring_write capacity h state (tl w)) w)); [done|].
  by apply ring_write_ok.
Qed.

Lemma Log_ring_ok (capacity : Z) (state : DebugState)
    (h : option DisassemblyInfo) (operationInfo : OperationInfo) (w : World) :
  ring_ok capacity (tl w) →
  ring_ok capacity (tl (exec (Log capacity state h operationInfo) w)).
Proof.
  intros Hok. destruct h as [d|]; [|done].
  pose proof (Log_ring capacity state d operationInfo w Hok) as Hring.
  unfold Log_view in Hring.
  destruct (bool_decide (_conditionRpnList (tl w) = [])).
  { by apply (ring_write_view_ok capacity (Some d) state w). }
  destruct (Evaluate _ _ _ _).
  { by apply (ring_write_view_ok capacity (Some d) state
                (set_evalCalls (S (evalCalls w)) w)). }
  destruct (decide (OperationType operationInfo = ExecOpCode)).
  - by apply (ring_ok_ring_of capacity
                (set_tl (set_lastDisassemblyInfo (Some d) (set_lastState state (tl w)))
                        (set_evalCalls (S (evalCalls w)) w))).
  - by apply (ring_ok_ring_of capacity (set_evalCalls (S (evalCalls w)) w)).
Qed.

Lemma LogNonExec_ring_ok (capacity : Z) (operationInfo : OperationInfo) (w : World) :
  ring_ok capacity (tl w) →
  ring_ok capacity (tl (exec (LogNonExec capacity operationInfo) w)).
Proof.
  intros Hok. unfold exec, LogNonExec. erewrite bind_Ok by reflexivity.
  destruct (_lastDisassemblyInfo (tl w)) as [d|] eqn:Hlast; [|done].
  pose proof (ConditionMatches_spec (_lastState (tl w)) LastDisassemblyInfo
                operationInfo w) as Hgate.
  cbn zeta in Hgate.
  destruct (bool_decide (_conditionRpnList (tl w) = [])).
  { erewrite bind_Ok by exact Hgate. cbv beta iota.
    erewrite bind_Ok by reflexivity.
    eapply ring_write_view_ok; [exact Hok|].
    by apply (AddRow_ring capacity LastDisassemblyInfo). }
  destruct (Evaluate _ _ _ _).
  { erewrite bind_Ok by exact Hgate. cbv beta iota.
    erewrite bind_Ok by reflexivity.
    eapply (ring_write_view_ok capacity _ _ (set_evalCalls (S (evalCalls w)) w));
      [exact Hok|].
    by apply (AddRow_ring capacity LastDisassemblyInfo). }
  erewrite bind_Ok by exact Hgate. cbv beta iota.
  destruct (decide (OperationType operationInfo = ExecOpCode)); exact Hok.
Qed.

(** ** The pending instruction *)

(** The world in which the gate has let an event pass. *)
Lemma gate_passes (state : DebugState) (r : HandleRef)
    (operationInfo : OperationInfo) (w : World) :
  _conditionRpnList (tl w) ≠ [] →
  Evaluate (_expEvaluator (tl w)) (_conditionRpnList (tl w)) state operationInfo
    = true →
  ConditionMatches state r operationInfo w
  = (Ok true, set_evalCalls (S (evalCalls w)) w).
Proof.
  intros Hrpn Hev. rewrite ConditionMatches_spec.
  rewrite bool_decide_eq_false_2 by done. cbn zeta. by rewrite Hev.
Qed.

Lemma LogNonExec_passes (capacity : Z) (operationInfo : OperationInfo)
    (d : DisassemblyInfo) (w : World) :
  ring_ok capacity (tl w) →
  _lastDisassemblyInfo (tl w) = Some d →
  _conditionRpnList (tl w) ≠ [] →
  Evaluate (_expEvaluator (tl w)) (_conditionRpnList (tl w)) (_lastState (tl w))
    operationInfo = true →
  LogNonExec capacity operationInfo w
  = AddRow_file None (_lastState (tl w))
      (set_tl (ring_write capacity (Some d) (_lastState (tl w)) (tl w))
              (set_evalCalls (S (evalCalls w)) w)).
Proof.
  intros Hok Hlast Hrpn Hev. unfold LogNonExec.
  erewrite bind_Ok by reflexivity. rewrite Hlast.
  erewrite bind_Ok by (by apply gate_passes). cbv beta iota.
  erewrite bind_Ok by reflexivity.
  rewrite AddRow_unfold by done. cbn [after_reset tl set_evalCalls].
  by rewrite Hlast.
Qed.

(** With no handle the row formatter never returns: it stops at the first
    [disassemblyInfo->], or earlier if an indentation cannot be built. *)
Lemma GetTraceRow_null_handle (self : TraceLogger) (cpuState : State)
    (ppuState : PPUDebugState) (firstLine : bool) (output : string) :
  ∃ e, outcome (GetTraceRow self cpuState ppuState None firstLine) output = Raise e
       ∧ (0 ≤ SP cpuState ≤ 255 → e = NullDeref).
Proof.
  unfold GetTraceRow, cxx_string, deref. msimpl.
  destruct (negb firstLine); cbn [append modify];
    destruct (ShowByteCode (_options self)); try (by eexists);
    destruct (IndentCode (_options self)); try (by eexists).
  all: destruct (255 - SP cpuState <? 0) eqn:Hsp; cbn [raise append modify];
    eexists; (split; [reflexivity|]); intros; try done.
  all: apply Z.ltb_lt in Hsp; lia.
Qed.

(** During a session a pending instruction whose condition now holds is
    stored in the ring, but [AddRow] has reset [_lastDisassemblyInfo], to
    which its handle parameter is bound, before it formats the row:
    [LogNonExec] stops on the null handle. *)
Lemma LogNonExec_session_fault (capacity : Z) (operationInfo : OperationInfo)
    (d : DisassemblyInfo) (w : World) :
  ring_ok capacity (tl w) →
  _logToFile (tl w) = true →
  _lastDisassemblyInfo (tl w) = Some d →
  _conditionRpnList (tl w) ≠ [] →
  Evaluate (_expEvaluator (tl w)) (_conditionRpnList (tl w)) (_lastState (tl w))
    operationInfo = true →
  0 ≤ SP (CPU (_lastState (tl w))) ≤ 255 →
  outcome (LogNonExec capacity operationInfo) w = Raise NullDeref.
Proof.
  intros Hok Hlog Hlast Hrpn Hev Hsp. unfold outcome.
  rewrite (LogNonExec_passes capacity operationInfo d) by done.
  unfold AddRow_file. erewrite bind_Ok by reflexivity.
  cbn [tl set_tl]. change (_logToFile (ring_write _ _ _ _)) with (_logToFile (tl w)).
  rewrite Hlog.
  match goal with
  | |- context [GetTraceRow ?t ?c ?p None ?f] =>
      destruct (GetTraceRow_null_handle t c p f
                  (_outputBuffer (ring_write capacity (Some d) (_lastState (tl w)) (tl w))))
        as (e & He & Hnull)
  end.
  rewrite (Hnull Hsp) in He. clear Hnull.
  unfold outcome in He. msimpl. cbn [tl set_tl set_evalCalls].
  destruct (GetTraceRow _ _ _ _ _ _) as [r s]. simpl in He. by subst r.
Qed.

(** C6, where the code departs from it.  A session is active, the
    condition holds on writes only; the opcode fetch fails the condition
    and is kept as pending, the write that follows passes it.
    [LogNonExec] then stores the pending instruction in the ring and
    clears the pending slot, but stops on the null handle while formatting
    the row for the file: no row is added to the file buffer. *)
Theorem LogNonExec_session_null_handle :
  _logToFile (tl Sample.pending_in_session) = true ∧
  _lastDisassemblyInfo (tl Sample.pending_in_session) = Some Sample.sta ∧
  _lastState (tl Sample.pending_in_session) = Sample.state 0x8000 ∧
  _currentPos (tl Sample.pending_in_session) = 0 ∧
  outcome (LogNonExec 4 Sample.write) Sample.pending_in_session = Raise NullDeref ∧
  slot (tl (exec (LogNonExec 4 Sample.write) Sample.pending_in_session)) 0
    = Some (Some Sample.sta, Sample.cpu 0x8000, Sample.ppu) ∧
  _lastDisassemblyInfo (tl (exec (LogNonExec 4 Sample.write)
                                 Sample.pending_in_session)) = None ∧
  _outputBuffer (tl (exec (LogNonExec 4 Sample.write) Sample.pending_in_session))
    = "8000  ".
Proof. vm_compute. done. Qed.

(** With no session active the pending instruction is recorded as C6
    says: the failed opcode fetch writes no row and keeps snapshot and
    handle; the passing [LogNonExec] writes exactly one row, with that
    snapshot and handle, and clears the pending slot, so that a further
    [LogNonExec] does nothing. *)
Lemma pending_recorded_once_idle (capacity : Z) (state : DebugState)
    (d : DisassemblyInfo) (fetch later : OperationInfo) (w : World) :
  0 < capacity → ring_ok capacity (tl w) →
  _logToFile (tl w) = false →
  _conditionRpnList (tl w) ≠ [] →
  OperationType fetch = ExecOpCode →
  Evaluate (_expEvaluator (tl w)) (_conditionRpnList (tl w)) state fetch = false →
  Evaluate (_expEvaluator (tl w)) (_conditionRpnList (tl w)) state later = true →
  let w1 := exec (Log capacity state (Some d) fetch) w in
  let w2 := exec (LogNonExec capacity later) w1 in
  let pos := Z.to_nat (_currentPos (tl w)) in
  (∀ i : nat, slot (tl w1) i = slot (tl w) i) ∧
  _currentPos (tl w1) = _currentPos (tl w) ∧
  _lastDisassemblyInfo (tl w1) = Some d ∧
  _lastState (tl w1) = state ∧
  outcome (LogNonExec capacity later) w1 = Ok () ∧
  slot (tl w2) pos = Some (Some d, CPU state, PPU state) ∧
  (∀ i : nat, i ≠ pos → slot (tl w2) i = slot (tl w) i) ∧
  _currentPos (tl w2) = (_currentPos (tl w) + 1) `mod` capacity ∧
  _lastDisassemblyInfo (tl w2) = None ∧
  (∀ operationInfo : OperationInfo,
     LogNonExec capacity operationInfo w2 = (Ok (), w2)).
Proof.
  intros Hcap Hok Hlog Hrpn Hfetch Hfail Hpass w1 w2 pos.
  set (wp := set_tl (set_lastDisassemblyInfo (Some d) (set_lastState state (tl w)))
               (set_evalCalls (S (evalCalls w)) w)).
  assert (Log capacity state (Some d) fetch w = (Ok (), wp)) as Hw1.
  { unfold Log. erewrite bind_Ok.
    2:{ rewrite ConditionMatches_spec.
        rewrite bool_decide_eq_false_2 by done. cbn zeta.
        rewrite Hfail. by rewrite decide_True by done. }
    done. }
  assert (w1 = wp) as -> by (subst w1; unfold exec; by rewrite Hw1).
  assert (ring_ok capacity (tl wp)) as Hokp by done.
  set (wr := set_tl (ring_write capacity (Some d) state (tl wp))
               (set_evalCalls (S (evalCalls wp)) wp)).
  assert (LogNonExec capacity later wp = (Ok (), wr)) as Hw2.
  { rewrite (LogNonExec_passes capacity later d) by done.
    by apply AddRow_file_idle. }
  assert (w2 = wr) as -> by (subst w2; unfold exec; by rewrite Hw2).
  split_and!; try done.
  - unfold outcome. by rewrite Hw2.
  - apply (ring_write_slot_eq capacity (Some d) state (tl wp) Hokp).
  - intros i Hi. by apply (ring_write_slot_ne capacity (Some d) state (tl wp)).
  - simpl. apply rem_cursor; [done|apply Hok].
Qed.

(** ** Reading the trace *)

Lemma to_int32_small (z : Z) : 0 ≤ z < 2 ^ 31 → to_int32 z = z.
Proof.
  intros Hz. unfold to_int32. rewrite Z.mod_small by lia.
  by rewrite (proj2 (Z.ltb_lt _ _)) by lia.
Qed.

Lemma to_uint32_small (z : Z) : 0 ≤ z < 2 ^ 32 → to_uint32 z = z.
Proof. intros Hz. unfold to_uint32. by rewrite Z.mod_small by lia. Qed.

Lemma to_int32_wrapped (z : Z) :
  - 2 ^ 31 ≤ z < 0 → to_int32 (to_uint32 z) = z.
Proof.
  intros Hz. unfold to_int32, to_uint32. rewrite Z.mod_mod by lia.
  replace (z `mod` 2 ^ 32) with (z + 2 ^ 32).
  2:{ apply (Zmod_unique _ _ (-1)); lia. }
  rewrite (proj2 (Z.ltb_ge _ _)) by lia. lia.
Qed.

(** One more line than the cursor and the capacity allow: the first slot
    index is [-1]. *)
Lemma GetExecutionTrace_one_too_many (capacity : Z) (w : World) :
  2 ≤ capacity < 2 ^ 30 → 0 ≤ _currentPos (tl w) < capacity →
  GetExecutionTrace capacity (_currentPos (tl w) + capacity + 1) w
  = (Raise OutOfBounds, set_tl (set_executionTrace "" (tl w)) w).
Proof.
  intros Hcap Hpos. unfold GetExecutionTrace.
  do 2 (erewrite bind_Ok by reflexivity). cbn [tl set_tl].
  change (_currentPos (set_executionTrace "" (tl w))) with (_currentPos (tl w)).
  rewrite (to_uint32_small (_ + _ + 1)) by lia.
  replace (_currentPos (tl w) + capacity - (_currentPos (tl w) + capacity + 1))
    with (-1) by lia.
  rewrite to_int32_wrapped by lia.
  rewrite to_int32_small by lia.
  destruct (Z.to_nat (_currentPos (tl w) + capacity + 1)) as [|n] eqn:Hn; [lia|].
  cbn [GetExecutionTrace_loop].
  erewrite bind_Raise; [done|].
  erewrite bind_Ok by reflexivity.
  erewrite bind_Raise; [done|].
  apply array_load_negative.
  rewrite Z.add_0_r. change (-1) with (Z.opp 1). rewrite Z.rem_opp_l by lia.
  rewrite Z.rem_small by lia. lia.
Qed.

(** C5, where the code departs from it.  On a logger just built with
    30000 slots, asking for 30001 lines makes the first slot index [-1],
    outside the arrays. *)
Theorem GetExecutionTrace_reads_before_the_ring :
  to_int32 (to_uint32 (_currentPos (tl (Sample.world 30000)) + 30000
                       - to_uint32 30001)) `rem` 30000 = -1 ∧
  outcome (GetExecutionTrace 30000 30001) (Sample.world 30000)
  = Raise OutOfBounds.
Proof.
  split; [reflexivity|].
  assert (_currentPos (tl (Sample.world 30000)) = 0) as Hpos by reflexivity.
  pose proof (GetExecutionTrace_one_too_many 30000 (Sample.world 30000)) as Hrun.
  rewrite Hpos in Hrun. unfold outcome.
  change (0 + 30000 + 1) with 30001 in Hrun. by rewrite Hrun by lia.
Qed.

(** The additions of the loop stay within [int]. *)
Lemma trace_index_no_overflow (capacity pos lineCount i : Z) :
  0 < capacity < 2 ^ 30 → 0 ≤ pos < capacity →
  0 ≤ i < to_int32 lineCount →
  - 2 ^ 31 ≤ to_int32 (to_uint32 (pos + capacity - to_uint32 lineCount)) + i
    < 2 ^ 31.
Proof.
  intros Hcap Hpos Hi.
  assert (0 ≤ to_uint32 lineCount < 2 ^ 31 ∧ i < to_uint32 lineCount) as [Hl Hil].
  { unfold to_int32, to_uint32 in *.
    pose proof (Z.mod_pos_bound lineCount (2 ^ 32) eq_refl).
    destruct (lineCount `mod` 2 ^ 32 <? 2 ^ 31) eqn:Hlt.
    - apply Z.ltb_lt in Hlt. lia.
    - apply Z.ltb_ge in Hlt. lia. }
  destruct (decide (to_uint32 lineCount ≤ pos + capacity)).
  - rewrite to_uint32_small by lia. rewrite to_int32_small by lia. lia.
  - rewrite to_int32_wrapped by lia. lia.
Qed.

(** While no more lines are asked for than the cursor and the capacity
    allow, every slot index lies inside the arrays. *)
Lemma trace_index_in_range (capacity pos lineCount i : Z) :
  0 < capacity < 2 ^ 30 → 0 ≤ pos < capacity →
  0 ≤ lineCount ≤ pos + capacity → 0 ≤ i < lineCount →
  0 ≤ (to_int32 (to_uint32 (pos + capacity - to_uint32 lineCount)) + i)
        `rem` capacity < capacity.
Proof.
  intros Hcap Hpos Hline Hi.
  rewrite (to_uint32_small lineCount) by lia.
  rewrite to_uint32_small by lia. rewrite to_int32_small by lia.
  rewrite Z.rem_mod_nonneg by lia. apply Z.mod_pos_bound. lia.
Qed.

(** More lines than slots, yet within what the cursor allows: the walk
    wraps around and renders the same slots twice. *)
Lemma GetExecutionTrace_wraps_twice :
  outcome (GetExecutionTrace 4 5) Sample.two_rows
  = Ok (Sample.row "8001  INX" +:+ newline +:+
        Sample.row "8000  NOP" +:+ newline +:+
        Sample.row "8001  INX").
Proof. vm_compute. reflexivity. Qed.

(** The row formatter reads the options, the memory view and the label
    resolver of the logger, nothing else. *)
Lemma GetTraceRow_self (t t' : TraceLogger) :
  _options t' = _options t →
  _memoryManager t' = _memoryManager t →
  _labelManager t' = _labelManager t →
  GetTraceRow t' = GetTraceRow t.
Proof. intros Ho Hm Hl. unfold GetTraceRow. by rewrite Ho, Hm, Hl. Qed.

Lemma render_rows_self (t t' : TraceLogger) (rows : list RingWrite) (firstLine : bool) :
  _options t' = _options t →
  _memoryManager t' = _memoryManager t →
  _labelManager t' = _labelManager t →
  render_rows t' rows firstLine = render_rows t rows firstLine.
Proof.
  intros Ho Hm Hl. revert firstLine.
  induction rows as [|r rows IH]; intros firstLine; [done|].
  cbn [render_rows]. by rewrite (GetTraceRow_self t t'), IH.
Qed.

(** The loop over slots that hold the rows [rows], in order, renders
    those rows into [_executionTrace]. *)
Lemma GetExecutionTrace_loop_rows (capacity : Z) (rows : list RingWrite)
    (i startPos : Z) (firstLine : bool) (w : World) :
  0 < capacity → 0 ≤ startPos + i →
  (∀ (j : nat) (r : RingWrite), rows !! j = Some r →
     slot (tl w) (Z.to_nat ((startPos + i + Z.of_nat j) `mod` capacity))
     = Some (Some r.1, CPU r.2, PPU r.2)) →
  GetExecutionTrace_loop capacity (length rows) i startPos firstLine w
  = on_executionTrace (render_rows (tl w) rows firstLine) w.
Proof.
  intros Hcap. revert i firstLine w.
  induction rows as [|r rows IH]; intros i firstLine w Hi Hslots.
  { cbn. by destruct w as [[] ? ? ? ? ?]. }
  cbn [length GetExecutionTrace_loop render_rows].
  pose proof (Hslots 0%nat r eq_refl) as Hslot.
  rewrite Z.add_0_r in Hslot.
  rewrite Z.rem_mod_nonneg by lia.
  assert (0 ≤ (startPos + i) `mod` capacity) as Hidx
    by (apply Z.mod_pos_bound; lia).
  unfold slot in Hslot.
  destruct (_disassemblyCache (tl w) !! _) as [h|] eqn:Hd; [|done].
  destruct (_cpuStateCache (tl w) !! _) as [c|] eqn:Hc; [|done].
  destruct (_ppuStateCache (tl w) !! _) as [p|] eqn:Hp; [|done].
  cbn in Hslot. injection Hslot as -> -> ->.
  erewrite bind_Ok by reflexivity.
  erewrite bind_Ok by (by apply array_load_ok). cbv beta iota.
  erewrite bind_Ok by (by apply array_load_ok).
  erewrite bind_Ok by (by apply array_load_ok).
  unfold on_executionTrace, zoom.
  unfold mbind at 1 2, M_bind at 1 2.
  destruct (GetTraceRow (tl w) (CPU r.2) (PPU r.2) (Some r.1) firstLine
              (_executionTrace (tl w))) as [[[]|e] s]; [|done].
  rewrite IH.
  - unfold on_executionTrace, zoom. cbn [tl set_tl _executionTrace set_executionTrace].
    rewrite (render_rows_self (tl w)) by done.
    by destruct (render_rows (tl w) rows false s).
  - lia.
  - intros j r' Hr'. cbn [tl set_tl].
    specialize (Hslots (S j) r' Hr').
    replace (startPos + (i + 1) + Z.of_nat j)
      with (startPos + i + Z.of_nat (S j)) by lia.
    exact Hslots.
Qed.

Lemma file_frame_static (w w' : World) :
  file_frame w w' →
  _options (tl w') = _options (tl w) ∧
  _memoryManager (tl w') = _memoryManager (tl w) ∧
  _labelManager (tl w') = _labelManager (tl w).
Proof. by intros (b & f & l & d & ->). Qed.

Lemma AddRow_static (capacity : Z) (r : HandleRef) (state : DebugState) (w : World) :
  ring_ok capacity (tl w) →
  let w' := exec (AddRow capacity r state) w in
  _options (tl w') = _options (tl w) ∧
  _memoryManager (tl w') = _memoryManager (tl w) ∧
  _labelManager (tl w') = _labelManager (tl w).
Proof.
  intros Hok w'. subst w'. unfold exec. rewrite AddRow_unfold by done.
  destruct (file_frame_static _ _ (AddRow_file_frame (after_reset r) state
    (set_tl (ring_write capacity
               (match r with
                | Local h => h
                | LastDisassemblyInfo => _lastDisassemblyInfo (tl w)
                end) state (tl w)) w))) as (Ho & Hm & Hl).
  split_and!; [exact Ho|exact Hm|exact Hl].
Qed.

Lemma mod_shift_ne (capacity a d : Z) :
  0 < capacity → 0 < d < capacity →
  (a + d) `mod` capacity ≠ a `mod` capacity.
Proof.
  intros Hcap Hd Heq.
  assert (d `mod` capacity = 0) as H0.
  { replace d with ((a + d) - a) by lia.
    rewrite Zminus_mod, Heq, Z.sub_diag. by apply Z.mod_0_l, Z.neq_sym, Z.lt_neq. }
  rewrite Z.mod_small in H0 by lia. lia.
Qed.

(** After a sequence of writes the cursor has advanced by their number,
    and write number [m] sits in slot [(cursor + m) mod capacity] as long
    as fewer than [capacity] writes have followed it. *)
Lemma after_writes_slots (capacity : Z) (rows : list RingWrite) (w : World) :
  0 < capacity → ring_ok capacity (tl w) →
  let w' := after_writes capacity rows w in
  ring_ok capacity (tl w') ∧
  _currentPos (tl w')
    = (_currentPos (tl w) + Z.of_nat (length rows)) `mod` capacity ∧
  _options (tl w') = _options (tl w) ∧
  _memoryManager (tl w') = _memoryManager (tl w) ∧
  _labelManager (tl w') = _labelManager (tl w) ∧
  ∀ (m : nat) (r : RingWrite),
    rows !! m = Some r → Z.of_nat (length rows - m) ≤ capacity →
    slot (tl w') (Z.to_nat ((_currentPos (tl w) + Z.of_nat m) `mod` capacity))
    = Some (Some r.1, CPU r.2, PPU r.2).
Proof.
  intros Hcap Hok. induction rows as [|r rows IH] using rev_ind.
  { cbn. split_and!; try done.
    rewrite Z.add_0_r, Z.mod_small; [done|apply Hok]. }
  unfold after_writes in *. rewrite foldl_app. cbn [foldl].
  set (w1 := foldl (λ w r, exec (write_row capacity r) w) w rows) in *.
  cbn zeta in IH. destruct IH as (Hok1 & Hpos1 & Ho1 & Hm1 & Hl1 & Hslots1).
  unfold write_row.
  pose proof (AddRow_ring capacity (Local (Some r.1)) r.2 w1 Hok1) as Hring.
  rewrite ring_of_ring_write in Hring.
  destruct (AddRow_static capacity (Local (Some r.1)) r.2 w1 Hok1) as (Ho2 & Hm2 & Hl2).
  set (w2 := exec (AddRow capacity (Local (Some r.1)) r.2) w1) in *.
  cbn zeta.
  assert (ring_ok capacity (tl w2)) as Hok2.
  { apply (ring_ok_ring_of capacity
             (set_tl (ring_write capacity (Some r.1) r.2 (tl w1)) w1)); [done|].
    by apply ring_write_ok. }
  assert (_currentPos (tl w2)
          = (_currentPos (tl w) + Z.of_nat (length (rows ++ [r]))) `mod` capacity)
    as Hpos2.
  { injection Hring as _ _ _ Hp _ _ _. rewrite Hp. cbn [ring_of rv_pos].
    rewrite rem_cursor by (done || apply Hok1).
    rewrite Hpos1, Z.add_mod_idemp_l by lia.
    rewrite length_app. cbn [length]. f_equal. lia. }
  split_and!; try done; try congruence.
  intros m r' Hr' Hm.
  rewrite length_app in Hm. cbn [length] in Hm.
  assert (slot (tl w2) (Z.to_nat ((_currentPos (tl w) + Z.of_nat m) `mod` capacity))
          = slot (ring_write capacity (Some r.1) r.2 (tl w1))
              (Z.to_nat ((_currentPos (tl w) + Z.of_nat m) `mod` capacity)))
    as ->.
  { apply (slot_ring_of
             (set_tl (ring_write capacity (Some r.1) r.2 (tl w1)) w1) w2).
    by rewrite ring_of_ring_write. }
  destruct (decide (m = length rows)) as [->|Hne].
  - rewrite list_lookup_middle in Hr' by done. injection Hr' as <-.
    pose proof (ring_write_slot_eq capacity (Some r.1) r.2 (tl w1) Hok1) as Hs.
    rewrite Hpos1 in Hs. exact Hs.
  - assert (m < length rows)%nat as Hlt.
    { apply lookup_lt_Some in Hr'. rewrite length_app in Hr'. cbn in Hr'. lia. }
    rewrite lookup_app_l in Hr' by done.
    rewrite ring_write_slot_ne.
    + apply Hslots1; [done|lia].
    + rewrite Hpos1. intros Heq. apply Z2Nat.inj in Heq.
      2,3: apply Z.mod_pos_bound; lia.
      apply (mod_shift_ne capacity (_currentPos (tl w) + Z.of_nat m)
               (Z.of_nat (length rows) - Z.of_nat m)); [done|lia|].
      rewrite Heq. f_equal. lia.
Qed.

Lemma lastn_length {T} (n : nat) (l : list T) :
  (n ≤ length l)%nat → length (lastn n l) = n.
Proof. intros Hn. unfold lastn. rewrite length_drop. lia. Qed.

Lemma lastn_lookup {T} (n j : nat) (l : list T) :
  (n ≤ length l)%nat → lastn n l !! j = l !! (length l - n + j)%nat.
Proof. intros Hn. unfold lastn. by rewrite lookup_drop. Qed.

(** C4.  After at least as many writes as the ring has slots,
    [GetExecutionTrace] asked for [capacity] lines returns exactly what
    rendering the last [capacity] written rows gives, in the order they
    were written: the oldest first, without a leading line break, the
    newest last. *)
Theorem GetExecutionTrace_last_rows (capacity : Z) (rows : list RingWrite)
    (w : World) :
  0 < capacity < 2 ^ 30 → ring_ok capacity (tl w) →
  (Z.to_nat capacity ≤ length rows)%nat →
  let w' := after_writes capacity rows w in
  outcome (GetExecutionTrace capacity capacity) w'
    = rendered (tl w') (lastn (Z.to_nat capacity) rows) ∧
  length (lastn (Z.to_nat capacity) rows) = Z.to_nat capacity.
Proof.
  intros Hcap Hok Hlen w'.
  destruct (after_writes_slots capacity rows w) as (Hok' & Hpos' & _ & _ & _ & Hslots);
    [lia|done|].
  fold w' in Hok', Hpos', Hslots.
  split; [|by apply lastn_length].
  set (last := lastn (Z.to_nat capacity) rows).
  assert (length last = Z.to_nat capacity) as Hlast by by apply lastn_length.
  set (w0 := set_tl (set_executionTrace "" (tl w')) w').
  assert (GetExecutionTrace_loop capacity (Z.to_nat capacity) 0
            (_currentPos (tl w')) true w0
          = on_executionTrace (render_rows (tl w0) last true) w0) as Hloop.
  { rewrite <-Hlast.
    apply GetExecutionTrace_loop_rows; [lia|pose proof (proj1 Hok'); lia|].
    intros j r Hr.
    assert (j < Z.to_nat capacity)%nat as Hj.
    { apply lookup_lt_Some in Hr. lia. }
    subst last. rewrite lastn_lookup in Hr by done.
    etrans; [by apply (slot_ring_of w' w0)|].
    pose proof (Hslots _ r Hr) as Hs.
    rewrite Hpos', Z.add_0_r, Z.add_mod_idemp_l by lia.
    replace ((_currentPos (tl w) + Z.of_nat (length rows) + Z.of_nat j) `mod` capacity)
      with ((_currentPos (tl w)
             + Z.of_nat (length rows - Z.to_nat capacity + j)) `mod` capacity).
    { apply Hs. lia. }
    replace (_currentPos (tl w) + Z.of_nat (length rows - Z.to_nat capacity + j))
      with (_currentPos (tl w) + Z.of_nat (length rows) + Z.of_nat j
            + (-1) * capacity) by lia.
    apply Z_mod_plus_full. }
  unfold outcome, GetExecutionTrace.
  do 2 (erewrite bind_Ok by reflexivity). fold w0.
  change (_currentPos (tl w0)) with (_currentPos (tl w')).
  rewrite (to_uint32_small capacity) by lia.
  replace (_currentPos (tl w') + capacity - capacity) with (_currentPos (tl w'))
    by lia.
  destruct Hok' as (Hp & _).
  rewrite to_uint32_small by lia. rewrite !to_int32_small by lia.
  unfold mbind at 1, M_bind at 1. rewrite Hloop.
  unfold rendered, on_executionTrace, zoom.
  rewrite (render_rows_self (tl w') (tl w0)) by done.
  change (_executionTrace (tl w0)) with "".
  by destruct (render_rows (tl w') last true "") as [[[]|e] s].
Qed.

Lemma GetExecutionTrace_last_rows_witness :
  outcome (GetExecutionTrace 2 2) (after_writes 2 Sample.three_writes (Sample.world 2))
  = Ok (Sample.row "8001  INX" +:+ newline +:+
        Sample.row "8002  STA $2000 = $00").
Proof.
  assert (0 < 2 < 2 ^ 30) as Hcap by lia.
  assert (ring_ok 2 (tl (Sample.world 2))) as Hok.
  { unfold ring_ok. simpl. lia. }
  assert (Z.to_nat 2 ≤ length Sample.three_writes)%nat as Hlen.
  { simpl. lia. }
  rewrite (proj1 (GetExecutionTrace_last_rows 2 Sample.three_writes (Sample.world 2)
                    Hcap Hok Hlen)).
  vm_compute. reflexivity.
Defined.

(** * Further properties *)

(** ** The row formatter only appends *)

Lemma appends_ret {R} (r : R) : appends (mret r : M string R).
Proof. intros output. cbn. by rewrite string_app_nil_r. Qed.

Lemma appends_skip : appends (skip : M string unit).
Proof. apply appends_ret. Qed.

Lemma appends_raise {R} (e : Fault) : appends (raise e : M string R).
Proof. intros output. cbn. by rewrite string_app_nil_r. Qed.

Lemma appends_append (s : string) : appends (append s).
Proof. intros output. reflexivity. Qed.

Lemma appends_bind {R1 R2} (m : M string R1) (k : R1 → M string R2) :
  appends m → (∀ r, appends (k r)) → appends (m ≫= k).
Proof.
  intros Hm Hk output. unfold mbind, M_bind.
  rewrite (Hm output). destruct (m "") as [[r|e] s]; cbn [fst snd]; [|done].
  rewrite (Hk r (output +:+ s)), (Hk r s).
  by rewrite string_app_assoc.
Qed.

Lemma appends_cxx_string (n : Z) (c : ascii) : appends (cxx_string n c).
Proof.
  unfold cxx_string. destruct (n <? 0); [apply appends_raise|apply appends_ret].
Qed.

Lemma appends_deref (h : option DisassemblyInfo) : appends (deref h).
Proof. destruct h; [apply appends_ret|apply appends_raise]. Qed.

Lemma GetStatusFlag_loop_appends (fmt : StatusFlagFormat) (n i : nat) (ps : Z)
    (output : string) (padding : Z) :
  GetStatusFlag_loop fmt n i ps output padding
  = (output +:+ (GetStatusFlag_loop fmt n i ps "" padding).1,
     (GetStatusFlag_loop fmt n i ps "" padding).2).
Proof.
  revert i ps output padding.
  induction n as [|n IH]; intros i ps output padding.
  { cbn. by rewrite string_app_nil_r. }
  cbn [GetStatusFlag_loop]. unfold push_back.
  destruct (negb (Z.land ps 128 =? 0)); [|destruct (decide (fmt = Text))].
  - rewrite (IH _ _ (output +:+ _)), (IH _ _ ("" +:+ _)). cbn [fst snd].
    by rewrite string_app_nil_l, string_app_assoc.
  - rewrite (IH _ _ (output +:+ _)), (IH _ _ ("" +:+ _)). cbn [fst snd].
    by rewrite string_app_nil_l, string_app_assoc.
  - by rewrite (IH _ _ output).
Qed.

Lemma GetStatusFlag_appends (fmt : StatusFlagFormat) (output : string) (ps : Z) :
  GetStatusFlag fmt output ps = output +:+ GetStatusFlag fmt "" ps.
Proof.
  unfold GetStatusFlag. rewrite string_app_nil_l.
  destruct (decide (fmt = Hexadecimal)); [by rewrite string_app_assoc|].
  rewrite (GetStatusFlag_loop_appends _ _ _ _ (output +:+ " P:")),
    (GetStatusFlag_loop_appends _ _ _ _ " P:").
  destruct (GetStatusFlag_loop fmt 8 0 ps "" 6) as [s padding]. cbn [fst snd].
  destruct (0 <? padding); by rewrite !string_app_assoc.
Qed.

Lemma appends_status (fmt : StatusFlagFormat) (ps : Z) :
  appends (modify (λ output, GetStatusFlag fmt output ps)).
Proof.
  intros output. unfold modify. cbn [fst snd].
  by rewrite <-GetStatusFlag_appends.
Qed.

(** Break a formatter down into its appending pieces. *)
Ltac solve_appends :=
  repeat first
    [ apply appends_append | apply appends_skip | apply appends_ret
    | apply appends_raise | apply appends_cxx_string | apply appends_deref
    | apply appends_status
    | match goal with
      | |- appends (if ?b then _ else _) => destruct b
      | |- appends (_ ≫= _) => apply appends_bind
      | |- ∀ _, _ => intros ?
      end ].

Lemma GetTraceRow_appends (self : TraceLogger) (cpuState : State)
    (ppuState : PPUDebugState) (disassemblyInfo : option DisassemblyInfo)
    (firstLine : bool) :
  appends (GetTraceRow self cpuState ppuState disassemblyInfo firstLine).
Proof. unfold GetTraceRow. cbv zeta. solve_appends. Qed.


(** X1.  [GetTraceRow] only appends to the string it is given: the outcome
    and the text added are the same whatever the string held, and what it
    held stays in front, also when formatting stops on a fault.  A row
    that is not the first is the same row written after a line break. *)
Theorem GetTraceRow_appends_row (self : TraceLogger) (cpuState : State)
    (ppuState : PPUDebugState) (disassemblyInfo : option DisassemblyInfo)
    (firstLine : bool) (output : string) :
  GetTraceRow self cpuState ppuState disassemblyInfo firstLine output
  = ((GetTraceRow self cpuState ppuState disassemblyInfo firstLine "").1,
     output +:+
     (GetTraceRow self cpuState ppuState disassemblyInfo firstLine "").2) ∧
  GetTraceRow self cpuState ppuState disassemblyInfo false output
  = GetTraceRow self cpuState ppuState disassemblyInfo true (output +:+ newline).
Proof.
  split; [apply GetTraceRow_appends|]. reflexivity.
Qed.

(** X2.  With byte-code display on, a byte-code text of more than 13
    characters cannot be padded: the count [13 - byteCode.size()] wraps,
    [std::string] throws, and the output holds only the separator and the
    address of the row that was being written. *)
Theorem GetTraceRow_byte_code_too_long (self : TraceLogger) (cpuState : State)
    (ppuState : PPUDebugState) (d : DisassemblyInfo) (firstLine : bool)
    (output : string) :
  ShowByteCode (_options self) = true →
  13 < len (GetByteCode d "") →
  GetTraceRow self cpuState ppuState (Some d) firstLine output
  = (Raise LengthError,
     output +:+ (if firstLine then "" else newline)
            +:+ ToHex16 (DebugPC cpuState) +:+ "  ").
Proof.
  intros Hshow Hlen.
  assert ((13 - len (GetByteCode d "") <? 0) = true) as Hneg
    by (apply Z.ltb_lt; lia).
  unfold GetTraceRow, cxx_string, deref, append. rewrite Hshow.
  destruct firstLine; cbn [negb]; msimpl; rewrite Hneg;
    by rewrite ?string_app_assoc, ?string_app_nil_l.
Qed.

Lemma GetTraceRow_byte_code_too_long_witness :
  GetTraceRow
    (set_options
       {| ShowByteCode := true; ShowRegisters := false; ShowCpuCycles := false;
          ShowPpuCycles := false; ShowPpuScanline := false;
          ShowPpuFrames := false; ShowExtraInfo := false; IndentCode := false;
          UseLabels := false; StatusFormat := Text; Condition := "" |}
       (tl (Sample.world 4)))
    (Sample.cpu 0x8000) Sample.ppu
    (Some {| GetByteCode := λ out, out +:+ "$8D $00 $20 $00";
             ToString := λ out _ _ _, out;
             GetEffectiveAddressString := λ out _ _ _, out |})
    true ""
  = (Raise LengthError, "8000  ").
Proof.
  rewrite GetTraceRow_byte_code_too_long; [reflexivity|reflexivity|].
  vm_compute. reflexivity.
Defined.

(** ** The condition gate, failing *)

(** X3.  When the condition does not hold, [Log] records nothing: the
    ring, the cursor and the file session are untouched and the evaluator
    has been asked once.  On an opcode fetch the state and the handle
    become the pending instruction, replacing an earlier one; on any other
    operation the pending instruction stays as it was. *)
Theorem Log_condition_fails (capacity : Z) (state : DebugState)
    (d : DisassemblyInfo) (operationInfo : OperationInfo) (w : World) :
  _conditionRpnList (tl w) ≠ [] →
  Evaluate (_expEvaluator (tl w)) (_conditionRpnList (tl w)) state operationInfo
    = false →
  Log capacity state (Some d) operationInfo w
  = (Ok (),
     if decide (OperationType operationInfo = ExecOpCode) then
       set_tl (set_lastDisassemblyInfo (Some d) (set_lastState state (tl w)))
              (set_evalCalls (S (evalCalls w)) w)
     else set_evalCalls (S (evalCalls w)) w).
Proof.
  intros Hrpn Hev. unfold Log.
  erewrite bind_Ok.
  2:{ rewrite ConditionMatches_spec. rewrite bool_decide_eq_false_2 by done.
      cbn zeta. rewrite Hev. reflexivity. }
  reflexivity.
Qed.

Lemma Log_condition_fails_witness :
  _lastDisassemblyInfo
    (tl (exec (Log 4 (Sample.state 0x8000) (Some Sample.sta) Sample.fetch)
              (exec (SetOptions (Sample.options "w")) (Sample.world 4))))
  = Some Sample.sta.
Proof.
  unfold exec at 1.
  rewrite Log_condition_fails; [reflexivity|by vm_compute|by vm_compute].
Defined.

(** X4.  [LogNonExec] without a pending instruction returns at once,
    without asking the evaluator.  With a pending instruction whose
    condition still does not hold it records nothing and keeps the pending
    instruction for the next event, whatever the kind of operation: only
    the count of evaluator calls changes. *)
Theorem LogNonExec_keeps_pending (capacity : Z) (operationInfo : OperationInfo)
    (w : World) :
  (_lastDisassemblyInfo (tl w) = None →
   LogNonExec capacity operationInfo w = (Ok (), w)) ∧
  (is_Some (_lastDisassemblyInfo (tl w)) →
   _conditionRpnList (tl w) ≠ [] →
   Evaluate (_expEvaluator (tl w)) (_conditionRpnList (tl w)) (_lastState (tl w))
     operationInfo = false →
   LogNonExec capacity operationInfo w
   = (Ok (), set_evalCalls (S (evalCalls w)) w)).
Proof.
  split.
  - intros Hlast. unfold LogNonExec. erewrite bind_Ok by reflexivity.
    by rewrite Hlast.
  - intros [d Hlast] Hrpn Hev. unfold LogNonExec.
    erewrite bind_Ok by reflexivity. rewrite Hlast.
    erewrite bind_Ok.
    2:{ rewrite ConditionMatches_spec. rewrite bool_decide_eq_false_2 by done.
        cbn zeta. rewrite Hev. reflexivity. }
    cbv beta iota. unfold skip, mret, M_ret. f_equal.
    destruct (decide (OperationType operationInfo = ExecOpCode)); [|done].
    destruct w as [[] ? ? ? ? ?]. by cbn in *.
Qed.

Lemma LogNonExec_keeps_pending_witness :
  LogNonExec 4 Sample.fetch Sample.pending_in_session
  = (Ok (), set_evalCalls 2 Sample.pending_in_session).
Proof.
  destruct (LogNonExec_keeps_pending 4 Sample.fetch Sample.pending_in_session)
    as [_ Hkeep].
  rewrite Hkeep; [reflexivity|by eexists|by vm_compute|by vm_compute].
Defined.

(** ** Reconfiguration *)

Lemma SetOptions_world (options : TraceLoggerOptions) (w : World) :
  SetOptions options w
  = (Ok (),
     set_tl (set_conditionRpnList
               (if decide (Condition options = "") then []
                else default [] (GetRpnList (_expEvaluator (tl w)) (Condition options)))
               (set_options options (tl w))) w).
Proof.
  unfold SetOptions. do 2 (erewrite bind_Ok by reflexivity).
  destruct (decide (Condition options = "")).
  { by destruct w as [[] ? ? ? ? ?]. }
  erewrite bind_Ok by reflexivity. cbn [tl set_tl].
  change (_expEvaluator (set_conditionRpnList [] (set_options options (tl w))))
    with (_expEvaluator (tl w)).
  destruct (GetRpnList _ _); by destruct w as [[] ? ? ? ? ?].
Qed.

Lemma LogNonExec_empty_condition_idle (capacity : Z)
    (operationInfo : OperationInfo) (d : DisassemblyInfo) (w : World) :
  ring_ok capacity (tl w) → _logToFile (tl w) = false →
  _lastDisassemblyInfo (tl w) = Some d → _conditionRpnList (tl w) = [] →
  LogNonExec capacity operationInfo w
  = (Ok (), set_tl (ring_write capacity (Some d) (_lastState (tl w)) (tl w)) w).
Proof.
  intros Hok Hlog Hlast Hrpn. unfold LogNonExec.
  erewrite bind_Ok by reflexivity. rewrite Hlast.
  erewrite bind_Ok by (by apply ConditionMatches_empty). cbv beta iota.
  erewrite bind_Ok by reflexivity.
  rewrite AddRow_unfold by done. rewrite AddRow_file_idle by done.
  by rewrite Hlast.
Qed.

(** X5.  [SetOptions] does not touch the pending instruction.  When the
    new condition is empty or does not compile, an instruction left
    pending under the old condition is recorded by the next [LogNonExec],
    whatever its operation, with the retained state and handle and
    without a call of the evaluator (no session being active). *)
Theorem SetOptions_releases_pending (capacity : Z) (options : TraceLoggerOptions)
    (d : DisassemblyInfo) (operationInfo : OperationInfo) (w : World) :
  0 < capacity → ring_ok capacity (tl w) →
  _logToFile (tl w) = false →
  _lastDisassemblyInfo (tl w) = Some d →
  Condition options = "" ∨
  GetRpnList (_expEvaluator (tl w)) (Condition options) = None →
  let w1 := exec (SetOptions options) w in
  let w2 := exec (LogNonExec capacity operationInfo) w1 in
  _lastDisassemblyInfo (tl w1) = Some d ∧
  _lastState (tl w1) = _lastState (tl w) ∧
  outcome (LogNonExec capacity operationInfo) w1 = Ok () ∧
  slot (tl w2) (Z.to_nat (_currentPos (tl w)))
    = Some (Some d, CPU (_lastState (tl w)), PPU (_lastState (tl w))) ∧
  _currentPos (tl w2) = (_currentPos (tl w) + 1) `mod` capacity ∧
  _lastDisassemblyInfo (tl w2) = None ∧
  evalCalls w2 = evalCalls w.
Proof.
  intros Hcap Hok Hlog Hlast Hcond w1 w2.
  assert (_conditionRpnList (tl w1) = []) as Hrpn
    by by apply SetOptions_no_program.
  assert (w1 = set_tl (set_conditionRpnList [] (set_options options (tl w))) w)
    as Hw1.
  { subst w1. unfold exec. rewrite SetOptions_world. cbn [snd].
    destruct (decide (Condition options = "")); [done|].
    destruct Hcond as [?| ->]; done. }
  assert (_lastDisassemblyInfo (tl w1) = Some d ∧
          _lastState (tl w1) = _lastState (tl w) ∧
          _logToFile (tl w1) = false ∧ ring_of w1 = ring_of w)
    as (Hlast1 & Hstate1 & Hlog1 & Hring1) by (by rewrite Hw1).
  assert (ring_ok capacity (tl w1)) as Hok1 by by apply (ring_ok_ring_of _ w).
  pose proof (LogNonExec_empty_condition_idle capacity operationInfo d w1
                Hok1 Hlog1 Hlast1 Hrpn) as Hrun.
  subst w2. unfold outcome, exec. rewrite Hrun. cbn [fst snd tl set_tl].
  split_and!; try done.
  - rewrite <-Hstate1.
    replace (_currentPos (tl w)) with (_currentPos (tl w1)) by by rewrite Hw1.
    by apply (ring_write_slot_eq capacity).
  - cbn. replace (_currentPos (tl w1)) with (_currentPos (tl w)) by by rewrite Hw1.
    apply rem_cursor; [done|apply Hok].
  - cbn. by rewrite Hw1.
Qed.

Lemma SetOptions_releases_pending_witness :
  slot (tl (exec (LogNonExec 4 Sample.read_op)
                 (exec (SetOptions (Sample.options "("))
                       Sample.pending_idle))) 0
  = Some (Some Sample.sta, Sample.cpu 0x8000, Sample.ppu).
Proof.
  assert (ring_ok 4 (tl Sample.pending_idle)) as Hok.
  { unfold ring_ok. vm_compute. repeat split; congruence. }
  destruct (SetOptions_releases_pending 4 (Sample.options "(") Sample.sta
              Sample.read_op Sample.pending_idle)
    as (_ & _ & _ & Hslot & _); [lia|exact Hok|reflexivity|reflexivity| |exact Hslot].
  right. reflexivity.
Defined.

(** ** Ending a session *)

(** X6.  [StopLogging] always leaves the logger idle and does nothing at
    all when it is idle already, so a second call changes nothing.  With
    a healthy sink it puts the buffered text into the file before closing
    the stream. *)
Theorem StopLogging_ends_session (w : World) :
  _logToFile (tl (exec StopLogging w)) = false ∧
  StopLogging (exec StopLogging w) = (Ok (), exec StopLogging w) ∧
  (∀ p : string,
     _logToFile (tl w) = true → _outputFile (tl w) = healthy p →
     file_content (exec StopLogging w) p
       = file_content w p +:+ _outputBuffer (tl w) ∧
     of_path (_outputFile (tl (exec StopLogging w))) = None).
Proof.
  destruct (StopLogging_idle w) as [Hidle _].
  split_and!.
  - exact Hidle.
  - by apply StopLogging_idle.
  - intros p Hlog Hfile. by apply StopLogging_flushes.
Qed.

Lemma StopLogging_ends_session_witness :
  file_content (exec StopLogging Sample.one_row) "a.log" = Sample.row "8000  NOP".
Proof.
  destruct (StopLogging_ends_session Sample.one_row) as (_ & _ & Hflush).
  destruct (Hflush "a.log") as [Hfile _]; [reflexivity|reflexivity|].
  rewrite Hfile. vm_compute. reflexivity.
Defined.

(** X7.  The destructor stops the session and clears the static instance
    pointer: afterwards the logger is idle and [LogStatic] does nothing,
    whatever session was active before. *)
Theorem TraceLogger_delete_detaches (log : string) (w : World) :
  _instance (exec TraceLogger_delete w) = false ∧
  _logToFile (tl (exec TraceLogger_delete w)) = false ∧
  LogStatic log (exec TraceLogger_delete w) = (Ok (), exec TraceLogger_delete w).
Proof.
  assert (outcome StopLogging w = Ok ()) as Hout.
  { unfold StopLogging. msimpl. destruct (_logToFile (tl w)); [|done].
    destruct (ofstream_good _); [|done].
    destruct (decide (_outputBuffer (tl w) = "")).
    - unfold ofstream_close. by destruct (of_path _).
    - destruct (ofstream_write_Ok (_outputBuffer (tl w)) w) as (w1 & -> & _).
      unfold ofstream_close. by destruct (of_path _). }
  assert (exec TraceLogger_delete w = set_instance false (exec StopLogging w))
    as ->.
  { unfold TraceLogger_delete, exec, outcome in *. unfold mbind, M_bind.
    destruct (StopLogging w) as [[[]|e] w1]; [done|discriminate]. }
  split_and!; [done|apply StopLogging_idle|].
  unfold LogStatic. by erewrite bind_Ok by reflexivity.
Qed.

(** ** The file session *)










(** X10.  While no session is active [Log] and [LogNonExec] never touch
    the file side: the buffer, the stream, the first-line flag and the
    files on disk are as before, whatever the condition decides. *)
Theorem idle_leaves_files (capacity : Z) (state : DebugState)
    (h : option DisassemblyInfo) (operationInfo : OperationInfo) (w : World) :
  ring_ok capacity (tl w) → _logToFile (tl w) = false →
  file_side (exec (Log capacity state h operationInfo) w) = file_side w ∧
  file_side (exec (LogNonExec capacity operationInfo) w) = file_side w.
Proof.
  intros Hok Hlog. unfold file_side. split.
  - destruct h as [d|]; [|done]. unfold exec, Log.
    pose proof (ConditionMatches_spec state (Local (Some d)) operationInfo w)
      as Hgate.
    cbn zeta in Hgate.
    destruct (bool_decide (_conditionRpnList (tl w) = [])).
    { erewrite bind_Ok by exact Hgate. cbv beta iota.
      rewrite AddRow_unfold by done. by rewrite AddRow_file_idle. }
    destruct (Evaluate _ _ _ _).
    { erewrite bind_Ok by exact Hgate. cbv beta iota.
      rewrite AddRow_unfold by done. by rewrite AddRow_file_idle. }
    erewrite bind_Ok by exact Hgate.
    by destruct (decide (OperationType operationInfo = ExecOpCode)).
  - unfold exec, LogNonExec. erewrite bind_Ok by reflexivity.
    destruct (_lastDisassemblyInfo (tl w)) as [d|] eqn:Hlast; [|done].
    pose proof (ConditionMatches_spec (_lastState (tl w)) LastDisassemblyInfo
                  operationInfo w) as Hgate.
    cbn zeta in Hgate.
    destruct (bool_decide (_conditionRpnList (tl w) = [])).
    { erewrite bind_Ok by exact Hgate. cbv beta iota.
      erewrite bind_Ok by reflexivity.
      rewrite AddRow_unfold by done. by rewrite AddRow_file_idle. }
    destruct (Evaluate _ _ _ _).
    { erewrite bind_Ok by exact Hgate. cbv beta iota.
      erewrite bind_Ok by reflexivity.
      rewrite AddRow_unfold by done. by rewrite AddRow_file_idle. }
    erewrite bind_Ok by exact Hgate.
    by destruct (decide (OperationType operationInfo = ExecOpCode)).
Qed.

Lemma idle_leaves_files_witness :
  disk (exec (Log 4 (Sample.state 0x8000) (Some Sample.nop) Sample.fetch)
             (Sample.world 4))
  = disk (Sample.world 4).
Proof.
  assert (ring_ok 4 (tl (Sample.world 4))) as Hok.
  { unfold ring_ok. simpl. lia. }
  destruct (idle_leaves_files 4 (Sample.state 0x8000) (Some Sample.nop)
              Sample.fetch (Sample.world 4) Hok eq_refl) as [Hfile _].
  exact (f_equal snd Hfile).
Defined.

(** ** What the ring is shielded from *)

Lemma framed_seq (m k : M World unit) : framed m → framed k → framed (m;; k).
Proof.
  intros Hm Hk w. destruct (Hm w) as (w1 & Hrun1 & Hf1).
  destruct (Hk w1) as (w2 & Hrun2 & Hf2).
  exists w2. split; [by erewrite bind_Ok by exact Hrun1|].
  by eapply file_frame_trans.
Qed.

Lemma framed_write (s : string) : framed (ofstream_write s).
Proof.
  intros w. destruct (ofstream_write_frame s w) as [Hout Hframe].
  unfold outcome, exec in *. destruct (ofstream_write s w) as [r w'].
  cbn in *. subst r. by exists w'.
Qed.

Lemma framed_clear : framed (update (set_outputBuffer "")).
Proof. intros w. eexists. split; [reflexivity|]. apply frame_set_outputBuffer. Qed.

Lemma framed_skip : framed skip.
Proof. intros w. exists w. split; [done|apply file_frame_refl]. Qed.

Lemma LogStatic_framed (log : string) : framed (LogStatic log).
Proof.
  intros w. unfold LogStatic. erewrite bind_Ok by reflexivity.
  destruct (_ && _); [|apply framed_skip].
  repeat (apply framed_seq; [first [apply framed_write|apply framed_clear]|]).
  apply framed_write.
Qed.

Lemma StartLogging_ring (filename : string) (w : World) :
  ring_of (exec (StartLogging filename) w) = ring_of w.
Proof.
  unfold StartLogging, ofstream_open. msimpl.
  destruct (of_path (_outputFile (tl w))); [done|].
  by destruct (decide (filename ∈ denied w)).
Qed.

Lemma StopLogging_ring (w : World) : ring_of (exec StopLogging w) = ring_of w.
Proof.
  unfold StopLogging. msimpl. destruct (_logToFile (tl w)); [|done].
  destruct (ofstream_good _); [|done].
  destruct (decide (_outputBuffer (tl w) = "")).
  - unfold ofstream_close. by destruct (of_path _).
  - destruct (framed_write (_outputBuffer (tl w)) w) as (w1 & -> & Hframe).
    apply file_frame_ring in Hframe. rewrite <-Hframe.
    unfold ofstream_close. by destruct (of_path _).
Qed.

Lemma SetOptions_ring (options : TraceLoggerOptions) (w : World) :
  ring_of (exec (SetOptions options) w) = ring_of w.
Proof. unfold exec. by rewrite SetOptions_world. Qed.

Lemma trace_frame_refl (w : World) : trace_frame w w.
Proof. exists (_executionTrace (tl w)). by destruct w as [[] ? ? ? ? ?]. Qed.

Lemma trace_frame_trans (w1 w2 w3 : World) :
  trace_frame w1 w2 → trace_frame w2 w3 → trace_frame w1 w3.
Proof. intros [s1 ->] [s2 ->]. by exists s2. Qed.

Lemma trace_frame_set (s : string) (w : World) :
  trace_frame w (set_tl (set_executionTrace s (tl w)) w).
Proof. by exists s. Qed.

Lemma array_load_cases {S T} (a : list T) (i : Z) (s : S) :
  (∃ v, a !! Z.to_nat i = Some v ∧ array_load a i s = (Ok v, s)) ∨
  array_load a i s = (Raise OutOfBounds, s).
Proof.
  unfold array_load. destruct (0 <=? i); [|by right].
  destruct (a !! Z.to_nat i) as [v|]; [left; by exists v|by right].
Qed.

Lemma GetExecutionTrace_loop_frame (capacity : Z) (n : nat) :
  ∀ (i startPos : Z) (firstLine : bool) (w : World),
    trace_frame w (exec (GetExecutionTrace_loop capacity n i startPos firstLine) w).
Proof.
  induction n as [|n IH]; intros i startPos firstLine w.
  { apply trace_frame_refl. }
  unfold exec. cbn [GetExecutionTrace_loop].
  erewrite bind_Ok by reflexivity.
  destruct (array_load_cases (S:=World) (_disassemblyCache (tl w))
              ((startPos + i) `rem` capacity) w) as [(h & _ & Hh)|Hh].
  2:{ erewrite bind_Raise by exact Hh. apply trace_frame_refl. }
  erewrite bind_Ok by exact Hh.
  destruct h as [d|]; [|apply IH].
  destruct (array_load_cases (S:=World) (_cpuStateCache (tl w))
              ((startPos + i) `rem` capacity) w) as [(c & _ & Hc)|Hc].
  2:{ erewrite bind_Raise by exact Hc. apply trace_frame_refl. }
  erewrite bind_Ok by exact Hc.
  destruct (array_load_cases (S:=World) (_ppuStateCache (tl w))
              ((startPos + i) `rem` capacity) w) as [(p & _ & Hp)|Hp].
  2:{ erewrite bind_Raise by exact Hp. apply trace_frame_refl. }
  erewrite bind_Ok by exact Hp.
  unfold on_executionTrace, zoom, mbind at 1, M_bind at 1.
  destruct (GetTraceRow _ _ _ _ _ _) as [[[]|e] s]; [|apply trace_frame_set].
  eapply trace_frame_trans; [apply (trace_frame_set s)|]. apply IH.
Qed.

Lemma GetExecutionTrace_trace_frame (capacity lineCount : Z) (w : World) :
  trace_frame w (exec (GetExecutionTrace capacity lineCount) w).
Proof.
  unfold exec, GetExecutionTrace.
  do 2 (erewrite bind_Ok by reflexivity).
  set (w0 := set_tl (set_executionTrace "" (tl w)) w).
  match goal with
  | |- context [GetExecutionTrace_loop capacity ?n ?i ?sp ?fl] =>
      pose proof (GetExecutionTrace_loop_frame capacity n i sp fl w0) as Hframe;
      unfold exec in Hframe;
      destruct (GetExecutionTrace_loop capacity n i sp fl w0) as [[[]|e] w1] eqn:Hloop
  end.
  - erewrite bind_Ok by exact Hloop. cbn.
    apply (trace_frame_trans w w0 w1); [apply trace_frame_set|exact Hframe].
  - erewrite bind_Raise by exact Hloop. cbn.
    apply (trace_frame_trans w w0 w1); [apply trace_frame_set|exact Hframe].
Qed.

(** X11.  Reading the trace changes nothing but the member
    [_executionTrace]: the ring, the cursor, the pending instruction, the
    options, the file session and the disk are as before, for every line
    count and also when the read stops on a fault.  What a successful
    read returns is what that member then holds. *)
Theorem GetExecutionTrace_frame (capacity lineCount : Z) (w : World) :
  (∃ s : string,
     exec (GetExecutionTrace capacity lineCount) w
     = set_tl (set_executionTrace s (tl w)) w) ∧
  (∀ text : string,
     outcome (GetExecutionTrace capacity lineCount) w = Ok text →
     _executionTrace (tl (exec (GetExecutionTrace capacity lineCount) w)) = text).
Proof.
  unfold outcome, exec, GetExecutionTrace.
  do 2 (erewrite bind_Ok by reflexivity).
  set (w0 := set_tl (set_executionTrace "" (tl w)) w).
  match goal with
  | |- context [GetExecutionTrace_loop capacity ?n ?i ?sp ?fl] =>
      pose proof (GetExecutionTrace_loop_frame capacity n i sp fl w0) as Hframe;
      unfold exec in Hframe;
      destruct (GetExecutionTrace_loop capacity n i sp fl w0) as [[[]|e] w1] eqn:Hloop
  end.
  - erewrite bind_Ok by exact Hloop. cbn. split; [|by intros text [= <-]].
    apply (trace_frame_trans w w0 w1); [apply trace_frame_set|exact Hframe].
  - erewrite bind_Raise by exact Hloop. cbn. split; [|done].
    apply (trace_frame_trans w w0 w1); [apply trace_frame_set|exact Hframe].
Qed.

Lemma GetExecutionTrace_frame_witness :
  _executionTrace (tl (exec (GetExecutionTrace 4 1) Sample.two_rows))
  = Sample.row "8001  INX".
Proof.
  destruct (GetExecutionTrace_frame 4 1 Sample.two_rows) as [_ Hret].
  apply Hret. vm_compute. reflexivity.
Defined.


Lemma GetExecutionTrace_ring (capacity lineCount : Z) (w : World) :
  ring_of (exec (GetExecutionTrace capacity lineCount;; skip) w) = ring_of w.
Proof.
  destruct (GetExecutionTrace_trace_frame capacity lineCount w) as [s Hs].
  unfold exec in *. unfold mbind, M_bind.
  destruct (GetExecutionTrace capacity lineCount w) as [[t|e] w'];
    cbn in *; by subst w'.
Qed.

(** X12.  The ring invariant holds from construction on: after any
    sequence of public calls, whatever their arguments and outcomes, the
    cursor lies in [0, capacity) and the three arrays have [capacity]
    slots. *)
Theorem ring_ok_always (capacity : Z) (ev : ExpressionEvaluator)
    (mm : option MemoryManager) (lm : option LabelManager) (u : Uninitialised)
    (calls : list Call) (w : World) :
  0 < capacity →
  tl w = TraceLogger_new capacity ev mm lm u →
  ring_ok capacity (tl (run_calls capacity calls w)).
Proof.
  intros Hcap Hnew.
  assert (ring_ok capacity (tl w)) as Hok.
  { rewrite Hnew. by apply TraceLogger_new_ring_ok. }
  clear Hnew. revert w Hok.
  induction calls as [|c calls IH]; intros w Hok; [done|].
  cbn [run_calls foldl]. apply IH.
  destruct c; cbn [do_call].
  - by apply (ring_ok_ring_of capacity w); [apply SetOptions_ring|].
  - by apply (ring_ok_ring_of capacity w); [apply StartLogging_ring|].
  - by apply (ring_ok_ring_of capacity w); [apply StopLogging_ring|].
  - destruct (LogStatic_framed log w) as (w' & Hrun & Hframe).
    unfold exec. rewrite Hrun.
    by apply (ring_ok_ring_of capacity w); [apply file_frame_ring|].
  - by apply Log_ring_ok.
  - by apply LogNonExec_ring_ok.
  - by apply (ring_ok_ring_of capacity w); [apply GetExecutionTrace_ring|].
Qed.

Lemma ring_ok_always_witness :
  ring_ok 4
    (tl (run_calls 4
           [CallSetOptions (Sample.options "w");
            CallStartLogging "a.log";
            CallLog (Sample.state 0x8000) (Some Sample.sta) Sample.fetch;
            CallLogNonExec Sample.write;
            CallGetExecutionTrace 9;
            CallLogStatic "NMI";
            CallStopLogging] (Sample.world 4))).
Proof.
  apply (ring_ok_always 4 Sample.evaluator None None Sample.uninitialised);
    [lia|reflexivity].
Defined.

(** X13.  Session control never disturbs the ring: [SetOptions],
    [StartLogging], [StopLogging] and [LogStatic] leave the slots, the
    cursor, the pending instruction and the count of evaluator calls
    exactly as they were, also when the sink fails. *)
Theorem session_control_keeps_ring (options : TraceLoggerOptions)
    (filename log : string) (w : World) :
  ring_of (exec (SetOptions options) w) = ring_of w ∧
  ring_of (exec (StartLogging filename) w) = ring_of w ∧
  ring_of (exec StopLogging w) = ring_of w ∧
  ring_of (exec (LogStatic log) w) = ring_of w.
Proof.
  split_and!.
  - apply SetOptions_ring.
  - apply StartLogging_ring.
  - apply StopLogging_ring.
  - destruct (LogStatic_framed log w) as (w' & Hrun & Hframe).
    unfold exec. rewrite Hrun. by apply file_frame_ring.
Qed.

(** ** Reading fewer lines, and reading a ring that is not full *)

(** The loop over slots of which some are empty renders the populated
    ones, in order. *)
Lemma GetExecutionTrace_loop_cells (capacity : Z)
    (cells : list (option RingWrite)) :
  ∀ (i startPos : Z) (firstLine : bool) (w : World),
    0 < capacity → 0 ≤ startPos + i →
    (∀ (j : nat) (cell : option RingWrite), cells !! j = Some cell →
       ∃ (c : State) (p : PPUDebugState),
         slot (tl w) (Z.to_nat ((startPos + i + Z.of_nat j) `mod` capacity))
         = Some (match cell with
                 | Some r => (Some r.1, CPU r.2, PPU r.2)
                 | None => (None, c, p)
                 end)) →
    GetExecutionTrace_loop capacity (length cells) i startPos firstLine w
    = on_executionTrace (render_rows (tl w) (populated cells) firstLine) w.
Proof.
  induction cells as [|cell cells IH]; intros i startPos firstLine w Hcap Hi Hslots.
  { cbn. by destruct w as [[] ? ? ? ? ?]. }
  cbn [length GetExecutionTrace_loop].
  destruct (Hslots 0%nat cell eq_refl) as (c0 & p0 & Hslot).
  rewrite Z.add_0_r in Hslot.
  rewrite Z.rem_mod_nonneg by lia.
  assert (0 ≤ (startPos + i) `mod` capacity) as Hidx
    by (apply Z.mod_pos_bound; lia).
  assert (∀ (j : nat) (cell' : option RingWrite), cells !! j = Some cell' →
            ∃ (c : State) (p : PPUDebugState),
              slot (tl w)
                (Z.to_nat ((startPos + (i + 1) + Z.of_nat j) `mod` capacity))
              = Some (match cell' with
                      | Some r => (Some r.1, CPU r.2, PPU r.2)
                      | None => (None, c, p)
                      end)) as Hrest.
  { intros j cell' Hcell. destruct (Hslots (S j) cell' Hcell) as (c & p & Hs).
    exists c, p.
    replace (startPos + (i + 1) + Z.of_nat j)
      with (startPos + i + Z.of_nat (S j)) by lia.
    exact Hs. }
  unfold slot in Hslot.
  destruct (_disassemblyCache (tl w) !! _) as [h|] eqn:Hd; [|done].
  destruct (_cpuStateCache (tl w) !! _) as [c|] eqn:Hc; [|done].
  destruct (_ppuStateCache (tl w) !! _) as [p|] eqn:Hp; [|done].
  cbn in Hslot.
  erewrite bind_Ok by reflexivity.
  erewrite bind_Ok by (by apply array_load_ok). cbv beta iota.
  destruct cell as [r|].
  - injection Hslot as -> -> ->.
    erewrite bind_Ok by (by apply array_load_ok).
    erewrite bind_Ok by (by apply array_load_ok).
    unfold populated. cbn [omap list_omap id]. cbn [render_rows].
    unfold on_executionTrace, zoom.
    unfold mbind at 1 2, M_bind at 1 2.
    destruct (GetTraceRow (tl w) (CPU r.2) (PPU r.2) (Some r.1) firstLine
                (_executionTrace (tl w))) as [[[]|e] s]; [|done].
    rewrite IH; [|done|lia|exact Hrest].
    unfold on_executionTrace, zoom.
    cbn [tl set_tl _executionTrace set_executionTrace].
    rewrite (render_rows_self (tl w)) by done.
    fold (populated cells).
    by destruct (render_rows (tl w) (populated cells) false s).
  - injection Hslot as -> _ _.
    rewrite IH; [|done|lia|exact Hrest]. reflexivity.
Qed.

Lemma populated_rows (n : nat) (rows : list RingWrite) :
  populated (replicate n None ++ (Some <$> rows)) = rows.
Proof.
  unfold populated. rewrite omap_app.
  assert (omap id (replicate n (@None RingWrite)) = []) as ->.
  { induction n as [|n IH]; [done|]. cbn. exact IH. }
  cbn. induction rows as [|r rows IH]; [done|]. cbn. by rewrite IH.
Qed.

(** Slots outside the stretch that a short run of writes covers keep
    their content. *)
Lemma after_writes_untouched (capacity : Z) (rows : list RingWrite) (w : World) :
  0 < capacity → ring_ok capacity (tl w) →
  _currentPos (tl w) + Z.of_nat (length rows) ≤ capacity →
  ∀ i : nat,
    Z.of_nat i < _currentPos (tl w) ∨
    _currentPos (tl w) + Z.of_nat (length rows) ≤ Z.of_nat i →
    slot (tl (after_writes capacity rows w)) i = slot (tl w) i.
Proof.
  intros Hcap Hok. induction rows as [|r rows IH] using rev_ind; [done|].
  rewrite length_app. cbn [length]. intros Hfit i Hi.
  destruct (after_writes_slots capacity rows w Hcap Hok) as (Hok1 & Hpos1 & _).
  unfold after_writes in *. rewrite foldl_app. cbn [foldl].
  set (w1 := foldl (λ w r, exec (write_row capacity r) w) w rows) in *.
  unfold write_row.
  rewrite (slot_ring_of (set_tl (ring_write capacity (Some r.1) r.2 (tl w1)) w1)).
  2:{ by apply (AddRow_ring capacity (Local (Some r.1))). }
  cbn [tl set_tl]. rewrite ring_write_slot_ne.
  - apply IH; lia.
  - pose proof (proj1 Hok) as Hpos. rewrite Hpos1. rewrite Z.mod_small by lia. lia.
Qed.

Lemma GetExecutionTrace_run (capacity lineCount startPos : Z)
    (rows : list RingWrite) (w : World) :
  0 ≤ lineCount < 2 ^ 31 →
  0 ≤ _currentPos (tl w) + capacity - lineCount < 2 ^ 31 →
  startPos = _currentPos (tl w) + capacity - lineCount →
  GetExecutionTrace_loop capacity (Z.to_nat lineCount) 0 startPos true
    (set_tl (set_executionTrace "" (tl w)) w)
  = on_executionTrace
      (render_rows (tl (set_tl (set_executionTrace "" (tl w)) w)) rows true)
      (set_tl (set_executionTrace "" (tl w)) w) →
  outcome (GetExecutionTrace capacity lineCount) w = rendered (tl w) rows.
Proof.
  intros Hline Hstart -> Hloop. unfold outcome, GetExecutionTrace.
  do 2 (erewrite bind_Ok by reflexivity).
  cbn [tl set_tl].
  change (_currentPos (set_executionTrace "" (tl w))) with (_currentPos (tl w)).
  rewrite (to_uint32_small lineCount) by lia.
  rewrite to_uint32_small by lia. rewrite !to_int32_small by lia.
  unfold mbind at 1, M_bind at 1. rewrite Hloop.
  unfold rendered, on_executionTrace, zoom. cbn [tl set_tl].
  change (_executionTrace (set_executionTrace "" (tl w))) with "".
  rewrite (render_rows_self (tl w) (set_executionTrace "" (tl w))) by done.
  by destruct (render_rows (tl w) rows true "") as [[[]|e] s].
Qed.

(** X14.  After a sequence of writes, asking for [k] lines, with [k] at
    most the number of writes and at most the capacity, returns the
    rendering of the [k] most recently written rows, oldest first.  Asking
    for no line returns the empty text. *)
Theorem GetExecutionTrace_recent (capacity : Z) (rows : list RingWrite)
    (k : nat) (w : World) :
  0 < capacity < 2 ^ 30 → ring_ok capacity (tl w) →
  (k ≤ length rows)%nat → Z.of_nat k ≤ capacity →
  outcome (GetExecutionTrace capacity (Z.of_nat k)) (after_writes capacity rows w)
  = rendered (tl (after_writes capacity rows w)) (lastn k rows).
Proof.
  intros Hcap Hok Hk HkC.
  destruct (after_writes_slots capacity rows w) as (Hok' & Hpos' & _ & _ & _ & Hslots);
    [lia|done|].
  set (w' := after_writes capacity rows w) in *.
  pose proof (proj1 Hok') as Hp.
  apply (GetExecutionTrace_run capacity (Z.of_nat k)
           (_currentPos (tl w') + capacity - Z.of_nat k)); [lia|lia|done|].
  set (w0 := set_tl (set_executionTrace "" (tl w')) w').
  replace (Z.to_nat (Z.of_nat k)) with (length (lastn k rows))
    by (rewrite lastn_length by done; lia).
  apply GetExecutionTrace_loop_rows; [lia|lia|].
  intros j r Hr.
  assert (j < k)%nat as Hj.
  { apply lookup_lt_Some in Hr. rewrite lastn_length in Hr by done. done. }
  rewrite lastn_lookup in Hr by done.
  etrans; [by apply (slot_ring_of w' w0)|].
  pose proof (Hslots _ r Hr) as Hs.
  replace ((_currentPos (tl w') + capacity - Z.of_nat k + 0 + Z.of_nat j) `mod` capacity)
    with ((_currentPos (tl w) + Z.of_nat (length rows - k + j)) `mod` capacity).
  { apply Hs. lia. }
  replace (_currentPos (tl w') + capacity - Z.of_nat k + 0 + Z.of_nat j)
    with (_currentPos (tl w') + (capacity - Z.of_nat k + Z.of_nat j)) by lia.
  rewrite Hpos', Z.add_mod_idemp_l by lia.
  replace (_currentPos (tl w) + Z.of_nat (length rows)
           + (capacity - Z.of_nat k + Z.of_nat j))
    with (_currentPos (tl w) + Z.of_nat (length rows - k + j) + 1 * capacity)
    by lia.
  by rewrite Z_mod_plus_full.
Qed.

Lemma GetExecutionTrace_recent_witness :
  outcome (GetExecutionTrace 4 1) (after_writes 4 Sample.three_writes (Sample.world 4))
  = Ok (Sample.row "8002  STA $2000 = $00").
Proof.
  assert (0 < 4 < 2 ^ 30) as Hcap by lia.
  assert (ring_ok 4 (tl (Sample.world 4))) as Hok.
  { unfold ring_ok. simpl. lia. }
  assert (1 ≤ length Sample.three_writes)%nat as Hk by (simpl; lia).
  assert (Z.of_nat 1 ≤ 4) as HkC by lia.
  pose proof (GetExecutionTrace_recent 4 Sample.three_writes 1 (Sample.world 4)
                Hcap Hok Hk HkC) as Hrun.
  change (Z.of_nat 1) with 1 in Hrun. rewrite Hrun.
  vm_compute. reflexivity.
Defined.

Lemma TraceLogger_new_slot (capacity : Z) (ev : ExpressionEvaluator)
    (mm : option MemoryManager) (lm : option LabelManager) (u : Uninitialised)
    (i : nat) :
  Z.of_nat i < capacity →
  slot (TraceLogger_new capacity ev mm lm u) i
  = Some (None, u_cpuState u, u_ppuState u).
Proof.
  intros Hi. unfold slot. cbn.
  by rewrite !lookup_replicate_2 by lia.
Qed.

(** X15.  On a logger whose ring has not yet been filled (at most
    [capacity] writes since construction), asking for at least as many
    lines as were written and at most [capacity] returns the rendering of
    all the rows written, oldest first: the slots never written produce
    no line.  On a new logger the result is the empty text. *)
Theorem GetExecutionTrace_partly_filled (capacity : Z) (ev : ExpressionEvaluator)
    (mm : option MemoryManager) (lm : option LabelManager) (u : Uninitialised)
    (rows : list RingWrite) (lineCount : Z) (w : World) :
  0 < capacity < 2 ^ 30 →
  tl w = TraceLogger_new capacity ev mm lm u →
  Z.of_nat (length rows) ≤ lineCount ≤ capacity →
  outcome (GetExecutionTrace capacity lineCount) (after_writes capacity rows w)
  = rendered (tl (after_writes capacity rows w)) rows.
Proof.
  intros Hcap Hnew Hline.
  assert (ring_ok capacity (tl w)) as Hok.
  { rewrite Hnew. apply TraceLogger_new_ring_ok. lia. }
  assert (_currentPos (tl w) = 0) as Hpos0 by by rewrite Hnew.
  destruct (after_writes_slots capacity rows w) as (Hok' & Hpos' & _ & _ & _ & Hslots);
    [lia|done|].
  pose proof (after_writes_untouched capacity rows w) as Hkeep.
  set (w' := after_writes capacity rows w) in *.
  rewrite Hpos0 in Hpos', Hslots, Hkeep. rewrite Z.add_0_l in Hpos'.
  pose proof (proj1 Hok') as Hp.
  set (n := length rows) in *.
  set (gap := (Z.to_nat lineCount - n)%nat).
  set (cells := replicate gap (@None RingWrite) ++ (Some <$> rows)).
  assert (length cells = Z.to_nat lineCount) as Hcells.
  { subst cells gap. rewrite length_app, length_replicate, length_fmap. lia. }
  apply (GetExecutionTrace_run capacity lineCount
           (_currentPos (tl w') + capacity - lineCount)); [lia|lia|done|].
  set (w0 := set_tl (set_executionTrace "" (tl w')) w').
  rewrite <-Hcells.
  rewrite <-(populated_rows gap rows).
  apply (GetExecutionTrace_loop_cells capacity cells); [lia|lia|].
  intros j cell Hcell. exists (u_cpuState u), (u_ppuState u).
  assert (slot (tl w0) = slot (tl w')) as -> by done.
  replace (_currentPos (tl w') + capacity - lineCount + 0 + Z.of_nat j)
    with (_currentPos (tl w') + (capacity - lineCount + Z.of_nat j)) by lia.
  rewrite Hpos', Z.add_mod_idemp_l by lia.
  assert (j < Z.to_nat lineCount)%nat as Hj.
  { apply lookup_lt_Some in Hcell. lia. }
  subst cells. destruct (decide (j < gap)%nat) as [Hgap|Hgap].
  - rewrite lookup_app_l in Hcell by (rewrite length_replicate; lia).
    apply lookup_replicate_1 in Hcell as [-> _].
    rewrite Z.mod_small by lia.
    rewrite (Hkeep ltac:(lia) Hok ltac:(lia)) by (right; lia).
    rewrite Hnew. apply TraceLogger_new_slot. lia.
  - rewrite lookup_app_r in Hcell by (rewrite length_replicate; lia).
    rewrite length_replicate, list_lookup_fmap in Hcell.
    destruct (rows !! (j - gap)%nat) as [r|] eqn:Hr; [|done].
    cbn in Hcell. injection Hcell as <-.
    pose proof (Hslots _ r Hr) as Hs. rewrite Z.add_0_l in Hs.
    replace ((Z.of_nat n + (capacity - lineCount + Z.of_nat j)) `mod` capacity)
      with (Z.of_nat (j - gap) `mod` capacity).
    { apply Hs. lia. }
    replace (Z.of_nat n + (capacity - lineCount + Z.of_nat j))
      with (Z.of_nat (j - gap) + 1 * capacity) by lia.
    by rewrite Z_mod_plus_full.
Qed.

Lemma GetExecutionTrace_partly_filled_witness :
  outcome (GetExecutionTrace 4 4) (after_writes 4 Sample.three_writes (Sample.world 4))
  = Ok (Sample.row "8000  NOP" +:+ newline +:+
        Sample.row "8001  INX" +:+ newline +:+
        Sample.row "8002  STA $2000 = $00").
Proof.
  assert (0 < 4 < 2 ^ 30) as Hcap by lia.
  assert (Z.of_nat (length Sample.three_writes) ≤ 4 ≤ 4) as Hline by (simpl; lia).
  rewrite (GetExecutionTrace_partly_filled 4 Sample.evaluator None None
             Sample.uninitialised Sample.three_writes 4 (Sample.world 4)
             Hcap eq_refl Hline).
  vm_compute. reflexivity.
Defined.

(** ** The condition gate, passing *)

(** X16.  When the condition holds, or there is none, [Log] with a handle
    records the event and drops whatever instruction was pending from an
    earlier opcode fetch without recording it; the evaluator is asked once
    when there is a condition and not at all when there is none. *)
Theorem Log_condition_holds (capacity : Z) (state : DebugState)
    (d : DisassemblyInfo) (operationInfo : OperationInfo) (w : World) :
  0 < capacity → ring_ok capacity (tl w) →
  _conditionRpnList (tl w) = [] ∨
  Evaluate (_expEvaluator (tl w)) (_conditionRpnList (tl w)) state operationInfo
    = true →
  let w' := exec (Log capacity state (Some d) operationInfo) w in
  slot (tl w') (Z.to_nat (_currentPos (tl w))) = Some (Some d, CPU state, PPU state) ∧
  (∀ i : nat, i ≠ Z.to_nat (_currentPos (tl w)) → slot (tl w') i = slot (tl w) i) ∧
  _currentPos (tl w') = (_currentPos (tl w) + 1) `mod` capacity ∧
  _lastDisassemblyInfo (tl w') = None ∧
  evalCalls w'
    = (evalCalls w + if bool_decide (_conditionRpnList (tl w) = []) then 0 else 1)%nat.
Proof.
  intros Hcap Hok Hpass w'.
  pose proof (Log_ring capacity state d operationInfo w Hok) as Hring.
  fold w' in Hring. unfold Log_view in Hring.
  assert (ring_of w'
          = ring_write_view capacity (Some d) state
              (if bool_decide (_conditionRpnList (tl w) = []) then ring_of w
               else count_call (ring_of w))) as Hview.
  { destruct (bool_decide (_conditionRpnList (tl w) = [])) eqn:Hrpn; [done|].
    destruct Hpass as [Hempty|Hev].
    - by rewrite bool_decide_eq_true_2 in Hrpn.
    - by rewrite Hev in Hring. }
  clear Hring.
  set (wg := if bool_decide (_conditionRpnList (tl w) = []) then w
             else set_evalCalls (S (evalCalls w)) w).
  assert (ring_of w' = ring_of (set_tl (ring_write capacity (Some d) state (tl wg)) wg))
    as Hring.
  { rewrite Hview. subst wg. by destruct (bool_decide _). }
  assert (tl wg = tl w) as Htl by (subst wg; by destruct (bool_decide _)).
  split_and!.
  - rewrite (slot_ring_of _ _ _ Hring). cbn [tl set_tl]. rewrite Htl.
    by apply (ring_write_slot_eq capacity).
  - intros i Hi. rewrite (slot_ring_of _ _ _ Hring). cbn [tl set_tl]. rewrite Htl.
    by apply (ring_write_slot_ne capacity).
  - injection Hring as _ _ _ Hpos _ _ _. rewrite Hpos. cbn. rewrite Htl.
    apply rem_cursor; [done|apply Hok].
  - by injection Hring.
  - injection Hring as _ _ _ _ _ _ Hcalls. rewrite Hcalls. subst wg.
    destruct (bool_decide _); cbn; lia.
Qed.

Lemma Log_condition_holds_witness :
  _lastDisassemblyInfo
    (tl (exec (Log 4 (Sample.state 0x8003) (Some Sample.nop) Sample.write)
              Sample.pending_idle)) = None ∧
  slot (tl (exec (Log 4 (Sample.state 0x8003) (Some Sample.nop) Sample.write)
                 Sample.pending_idle)) 0
  = Some (Some Sample.nop, Sample.cpu 0x8003, Sample.ppu).
Proof.
  assert (ring_ok 4 (tl Sample.pending_idle)) as Hok.
  { unfold ring_ok. vm_compute. repeat split; congruence. }
  destruct (Log_condition_holds 4 (Sample.state 0x8003) Sample.nop Sample.write
              Sample.pending_idle) as (Hslot & _ & _ & Hlast & _);
    [lia|exact Hok|right; reflexivity|].
  split; [exact Hlast|exact Hslot].
Defined.

(** * A session on a file that cannot be opened *)




















